(** * GraphPDF: the polygon-zone editor of [NewPDFCanvasViewer.tsx]

    A shallow embedding of the editing core of the component
    [NewPDFPolygonDrawer]: point snapping ([getSnappedPoint]), polygon
    closure and zone merging ([handleClosePolygon]) and the snapshot
    history ([handleUndo], [handleRedo]).

    - JavaScript numbers are an interface ([Number]); its instance
      [JSDouble] is IEEE 754 binary64 on Rocq's primitive floats, the
      numbers the program runs on.  What is proved for every instance
      holds of the doubles.
    - The polygon library (turf) is not part of the repository; it is an
      interface ([Turf]) whose operations may throw.
    - React state is a record ([State]); every handler reads the state of
      the render it closes over and returns the state after its setters,
      or the exception it lets escape. *)

From Stdlib Require Import ZArith List Bool String Floats Lia.
Import ListNotations.

Set Implicit Arguments.

(** ** Completions: a handler returns normally or throws *)

Inductive Exception : Type :=
| TypeError                          (* property access on [undefined] *)
| LibraryError (message : string).   (* an [Error] thrown by the polygon library *)

(** [Mistyped] stands for a return with a value that is not of the type
    the program declares for it: [handleClosePolygon] sets such a ZoneSet
    when [difference] hands it a MultiPolygon.  The embedding does not
    follow the state further. *)
Inductive Completion (A : Type) : Type :=
| Normal (a : A)
| Throw (e : Exception)
| Mistyped.

Arguments Normal {A} a.
Arguments Throw {A} e.
Arguments Mistyped {A}.

Definition bind {A B} (c : Completion A) (k : A -> Completion B) : Completion B :=
  match c with
  | Normal a => k a
  | Throw e => Throw e
  | Mistyped => Mistyped
  end.

Notation "x <- c ;; k" := (bind c (fun x => k))
  (at level 61, c at next level, right associativity).
Notation "' p <- c ;; k" := (bind c (fun p => k))
  (at level 61, p pattern, c at next level, right associativity).

(** [for (const a of l) body], with the variables the body assigns as [s]. *)
Fixpoint forOf {A S} (body : S -> A -> Completion S) (l : list A) (s : S)
  : Completion S :=
  match l with
  | [] => Normal s
  | a :: l' => s' <- body s a ;; forOf body l' s'
  end.

(** ** JavaScript numbers, as the program uses them *)

Class Number (num : Type) : Type := {
  nadd : num -> num -> num;        (* a + b *)
  nsub : num -> num -> num;        (* a - b *)
  nmul : num -> num -> num;        (* a * b *)
  ndiv : num -> num -> num;        (* a / b *)
  npow2 : num -> num;              (* a ** 2 *)
  nsqrt : num -> num;              (* Math.sqrt(a) *)
  nlt : num -> num -> bool;        (* a < b *)
  nne : num -> num -> bool;        (* a !== b *)
  ntruthy : num -> bool;           (* ToBoolean(a), as in [a || 1] *)
  toFixed2 : num -> num;           (* +a.toFixed(2) *)
  nlit : Z -> num                  (* an integer literal *)
}.

Declare Scope js_scope.
Delimit Scope js_scope with js.
Infix "+" := nadd : js_scope.
Infix "-" := nsub : js_scope.
Infix "*" := nmul : js_scope.
Infix "/" := ndiv : js_scope.

Section Editor.

Context {num : Type} `{Number num}.

(** *** Data model *)

(** [interface Point { x: number; y: number }] *)
Record Point : Type := { x : num; y : num }.

(** A GeoJSON position [[x, y]]. *)
Definition Position : Type := (num * num)%type.

(** [Point[][]]: ring 0 is the outer boundary, the others are holes. *)
Definition Zone : Type := list (list Point).

(** [Point[][][]] *)
Definition ZoneSet : Type := list Zone.

(** The four [useState] cells the editing handlers read and write. *)
Record State : Type := {
  currentPolygon : list Point;
  zones : ZoneSet;
  history : list ZoneSet;
  redoStack : list ZoneSet
}.

(** [Feature<Polygon>]: only [geometry.coordinates] is ever read. *)
Record Polygon : Type := { coordinates : list (list Position) }.
Record Feature : Type := { geometry : option Polygon }.

(** What [difference] returns: [null] or a [Feature<Polygon>], or, when
    the subtraction leaves several pieces, a [Feature<MultiPolygon>], whose
    coordinates are a list of polygons, each a list of rings.  The source
    casts the result to [Feature<Polygon>] without a check. *)
Inductive Difference : Type :=
| PolygonOrNull (clipped : option Feature)
| MultiPolygon (polygons : list (list (list Position))).

(** The operations imported from turf.  Each may throw. *)
Class Turf : Type := {
  turfPolygon : list (list Position) -> Completion Feature;
  booleanContains : Feature -> Feature -> Completion bool;
  booleanIntersects : Feature -> Feature -> Completion bool;
  difference : Feature -> Feature -> Completion Difference
}.

(** An element of [updatedZones]: a zone, or what lines 190 to 192 make of
    a MultiPolygon, one list per polygon with one entry per ring of it,
    [{ x: ring[0], y: ring[1] }], positions where numbers are declared. *)
Inductive Stored : Type :=
| WellTyped (zone : Zone)
| Garbled (entries : list (list (option Position * option Position))).

(** The ZoneSet that [updatedZones] is when each element is a zone. *)
Fixpoint typedZones (l : list Stored) : option ZoneSet :=
  match l with
  | [] => Some []
  | WellTyped zone :: l' => option_map (cons zone) (typedZones l')
  | Garbled _ :: _ => None
  end.

(** *** Geometry utilities *)

Definition SNAP_THRESHOLD : num := nlit 10.

Definition isCloseToStart (start current : Point) : bool :=
  let dx := (x start - x current)%js in
  let dy := (y start - y current)%js in
  nlt (nsqrt (dx * dx + dy * dy)%js) (nlit 10).

Definition distance (a b : Point) : num :=
  nsqrt (npow2 (x a - x b) + npow2 (y a - y b))%js.

(** The body of the innermost loop of [getSnappedPoint], on the pair
    [(nearest, minDist)]. *)
Definition scanVertex (point : Point) (s : option Point * num) (vertex : Point)
  : option Point * num :=
  let d := distance point vertex in
  if nlt d (snd s) then (Some vertex, d) else s.

Definition scanRing (point : Point) (s : option Point * num) (ring : list Point)
  : option Point * num :=
  fold_left (scanVertex point) ring s.

Definition scanZone (point : Point) (s : option Point * num) (zone : Zone)
  : option Point * num :=
  fold_left (scanRing point) zone s.

Definition scanZones (zs : ZoneSet) (point : Point) : option Point * num :=
  fold_left (scanZone point) zs (None, SNAP_THRESHOLD).

Definition getSnappedPoint (zs : ZoneSet) (point : Point) : Point :=
  match fst (scanZones zs point) with
  | Some nearest =>
      let dx := (x point - x nearest)%js in
      let dy := (y point - y nearest)%js in
      let root := nsqrt (dx * dx + dy * dy)%js in
      let length := if ntruthy root then root else nlit 1 in
      let offset := nlit 1 in
      {| x := (x nearest + (dx / length) * offset)%js;
         y := (y nearest + (dy / length) * offset)%js |}
  | None => point
  end.

(** Every vertex of every ring of every zone, in iteration order. *)
Definition vertices (zs : ZoneSet) : list Point := List.concat (List.concat zs).

(** *** Ring normalisation, as written inline in [handleClosePolygon] *)

(** [(p) => [+p.x.toFixed(2), +p.y.toFixed(2)]] *)
Definition roundPoint (p : Point) : Position := (toFixed2 (x p), toFixed2 (y p)).

(** [([x, y]) => ({ x, y })] *)
Definition toPoint (c : Position) : Point := {| x := fst c; y := snd c |}.

(** [if (c[0][0] !== c[c.length - 1][0] || c[0][1] !== c[c.length - 1][1])
       c.push([...c[0]])]; reading [c[0][0]] of an empty [c] is a
    [TypeError]. *)
Definition pushFirstIfOpen (coords : list Position) : Completion (list Position) :=
  match coords with
  | [] => Throw TypeError
  | first :: _ =>
      let last := List.last coords first in
      if nne (fst first) (fst last) || nne (snd first) (snd last)
      then Normal (coords ++ [first])
      else Normal coords
  end.

(** *** Zone merge *)

Context {turf : Turf}.

(** [clipped?.geometry?.coordinates], [[]] standing for a missing or empty
    coordinate array (both make the [if] of line 189 fail). *)
Definition clippedRings (clipped : option Feature) : list (list Position) :=
  match clipped with
  | Some f => match geometry f with
              | Some g => coordinates g
              | None => []
              end
  | None => []
  end.

(** [([x, y]) => ({ x, y })] applied to a ring: its first two positions. *)
Definition firstTwo (ring : list Position) : option Position * option Position :=
  (nth_error ring 0, nth_error ring 1).

(** One iteration of [for (let zone of zones)], on the pair
    [(updatedZones, overlapHandled)]. *)
Definition mergeZone (coords : list Position) (newTurf : Feature)
    (s : list Stored * bool) (zone : Zone) : Completion (list Stored * bool) :=
  let '(updatedZones, overlapHandled) := s in
  match zone with
  | [] => Throw TypeError
  | outer :: rest =>
      flatOuter <- pushFirstIfOpen (map roundPoint outer) ;;
      let holes := map (map roundPoint) rest in
      existingTurf <- turfPolygon (flatOuter :: holes) ;;
      contained <- booleanContains existingTurf newTurf ;;
      if contained then
        let newHoles := holes ++ [coords] in
        let updatedZone := map toPoint flatOuter :: map (map toPoint) newHoles in
        Normal (updatedZones ++ [WellTyped updatedZone], true)
      else
        crossing <- booleanIntersects existingTurf newTurf ;;
        if crossing then
          result <- difference existingTurf newTurf ;;
          match result with
          | PolygonOrNull clipped =>
              match clippedRings clipped with
              | [] => Normal (updatedZones, true)
              | rings =>
                  Normal (updatedZones ++ [WellTyped (map (map toPoint) rings)], true)
              end
          | MultiPolygon [] => Normal (updatedZones, true)
          | MultiPolygon polygons =>
              Normal (updatedZones ++ [Garbled (map (map firstTwo) polygons)], true)
          end
        else Normal (updatedZones ++ [WellTyped zone], overlapHandled)
  end.

(** [updatedZones] at line 205, with [overlapHandled]. *)
Definition mergedZones (st : State) : Completion (list Stored) :=
  coords <- pushFirstIfOpen (map roundPoint (currentPolygon st)) ;;
  newTurf <- turfPolygon [coords] ;;
  ' (updatedZones, overlapHandled) <-
      forOf (mergeZone coords newTurf) (zones st) ([], false) ;;
  Normal (if overlapHandled then updatedZones
          else updatedZones ++ [WellTyped [currentPolygon st]]).

Definition handleClosePolygon (st : State) : Completion State :=
  updatedZones <- mergedZones st ;;
  match typedZones updatedZones with
  | Some updatedZones =>
      Normal {| history := history st ++ [zones st];
                redoStack := [];
                zones := updatedZones;
                currentPolygon := [] |}
  | None => Mistyped
  end.

(** *** Drawing session *)

Definition handleCanvasClick (st : State) (rawPoint : Point) : Completion State :=
  let snapped := getSnappedPoint (zones st) rawPoint in
  let closing :=
    (3 <=? List.length (currentPolygon st))%nat &&
    match currentPolygon st with
    | start :: _ => isCloseToStart start snapped
    | [] => false
    end in
  if closing then handleClosePolygon st
  else Normal {| currentPolygon := currentPolygon st ++ [snapped];
                 zones := zones st;
                 history := history st;
                 redoStack := redoStack st |}.

Definition handleCanvasDoubleClick (st : State) : Completion State :=
  if (3 <=? List.length (currentPolygon st))%nat then handleClosePolygon st
  else Normal st.

(** *** Edit history *)

Definition handleUndo (st : State) : State :=
  match history st with
  | [] => st
  | oldest :: _ =>
      let previous := List.last (history st) oldest in
      {| history := removelast (history st);
         redoStack := zones st :: redoStack st;
         zones := previous;
         currentPolygon := currentPolygon st |}
  end.

Definition handleRedo (st : State) : State :=
  match redoStack st with
  | [] => st
  | next :: rest =>
      {| redoStack := rest;
         history := history st ++ [zones st];
         zones := next;
         currentPolygon := currentPolygon st |}
  end.

(** *** Paths through a closure

    The conditions under which [handleClosePolygon] takes one branch or
    another, as equations on the calls it makes. *)

(** The closure of [st] reaches the zone loop with the rounded, closed
    ring [coords] and its feature [newTurf] (lines 161 to 165). *)
Definition entersLoop (st : State) (coords : list Position) (newTurf : Feature)
  : Prop :=
  pushFirstIfOpen (map roundPoint (currentPolygon st)) = Normal coords /\
  turfPolygon [coords] = Normal newTurf.

(** The iteration for the zone [outer :: rest] reaches the tests of lines
    177 and 186 with [flatOuter] and [existingTurf] (lines 170 to 175). *)
Definition reachesTests (outer : list Point) (rest : list (list Point))
    (flatOuter : list Position) (existingTurf : Feature) : Prop :=
  pushFirstIfOpen (map roundPoint outer) = Normal flatOuter /\
  turfPolygon (flatOuter :: map (map roundPoint) rest) = Normal existingTurf.

Definition isContained (existingTurf newTurf : Feature) : Prop :=
  booleanContains existingTurf newTurf = Normal true.

(** The new polygon crosses the zone and [difference] returns [clipped],
    [null] or a Polygon feature. *)
Definition isClipped (existingTurf newTurf : Feature) (clipped : option Feature)
  : Prop :=
  booleanContains existingTurf newTurf = Normal false /\
  booleanIntersects existingTurf newTurf = Normal true /\
  difference existingTurf newTurf = Normal (PolygonOrNull clipped).

Definition isApart (existingTurf newTurf : Feature) : Prop :=
  booleanContains existingTurf newTurf = Normal false /\
  booleanIntersects existingTurf newTurf = Normal false.

(** [zone] is neither contained in nor crossed by the new polygon. *)
Definition passesThrough (newTurf : Feature) (zone : Zone) : Prop :=
  exists outer rest flatOuter existingTurf,
    zone = outer :: rest /\
    reachesTests outer rest flatOuter existingTurf /\
    isApart existingTurf newTurf.

(** The zone loop run on [zs] alone pushes the zones [pushed] and leaves
    [overlapHandled] at [handled]. *)
Definition mergesTo (coords : list Position) (newTurf : Feature) (zs : ZoneSet)
    (pushed : ZoneSet) (handled : bool) : Prop :=
  forOf (mergeZone coords newTurf) zs ([], false)
  = Normal (map WellTyped pushed, handled).

(** A call into the library throws [e] in the iteration for [zone]. *)
Inductive throwsInZone (newTurf : Feature) : Zone -> Exception -> Prop :=
| throws_turfPolygon outer rest flatOuter e :
    pushFirstIfOpen (map roundPoint outer) = Normal flatOuter ->
    turfPolygon (flatOuter :: map (map roundPoint) rest) = Throw e ->
    throwsInZone newTurf (outer :: rest) e
| throws_booleanContains outer rest flatOuter existingTurf e :
    reachesTests outer rest flatOuter existingTurf ->
    booleanContains existingTurf newTurf = Throw e ->
    throwsInZone newTurf (outer :: rest) e
| throws_booleanIntersects outer rest flatOuter existingTurf e :
    reachesTests outer rest flatOuter existingTurf ->
    booleanContains existingTurf newTurf = Normal false ->
    booleanIntersects existingTurf newTurf = Throw e ->
    throwsInZone newTurf (outer :: rest) e
| throws_difference outer rest flatOuter existingTurf e :
    reachesTests outer rest flatOuter existingTurf ->
    booleanContains existingTurf newTurf = Normal false ->
    booleanIntersects existingTurf newTurf = Normal true ->
    difference existingTurf newTurf = Throw e ->
    throwsInZone newTurf (outer :: rest) e.

(** A call into the library throws [e] during the closure of [st]: on the
    new polygon, or in the iteration for some zone that the loop reaches. *)
Inductive libraryThrows (st : State) (e : Exception) : Prop :=
| throws_on_new coords :
    pushFirstIfOpen (map roundPoint (currentPolygon st)) = Normal coords ->
    turfPolygon [coords] = Throw e ->
    libraryThrows st e
| throws_on_zone coords newTurf before zone after s :
    entersLoop st coords newTurf ->
    zones st = before ++ zone :: after ->
    forOf (mergeZone coords newTurf) before ([], false) = Normal s ->
    throwsInZone newTurf zone e ->
    libraryThrows st e.

(** What the iteration for one zone pushes onto [updatedZones], and
    whether it raises [overlapHandled], branch by branch. *)
Inductive stores (coords : list Position) (newTurf : Feature)
  : Zone -> ZoneSet * bool -> Prop :=
| stores_hole outer rest flatOuter existingTurf :
    reachesTests outer rest flatOuter existingTurf ->
    isContained existingTurf newTurf ->
    stores coords newTurf (outer :: rest)
      ([map toPoint flatOuter ::
        map (map toPoint) (map (map roundPoint) rest ++ [coords])], true)
| stores_remainder outer rest flatOuter existingTurf clipped ring rings :
    reachesTests outer rest flatOuter existingTurf ->
    isClipped existingTurf newTurf clipped ->
    clippedRings clipped = ring :: rings ->
    stores coords newTurf (outer :: rest)
      ([map (map toPoint) (ring :: rings)], true)
| stores_nothing outer rest flatOuter existingTurf clipped :
    reachesTests outer rest flatOuter existingTurf ->
    isClipped existingTurf newTurf clipped ->
    clippedRings clipped = [] ->
    stores coords newTurf (outer :: rest) ([], true)
| stores_split outer rest flatOuter existingTurf :
    reachesTests outer rest flatOuter existingTurf ->
    booleanContains existingTurf newTurf = Normal false ->
    booleanIntersects existingTurf newTurf = Normal true ->
    difference existingTurf newTurf = Normal (MultiPolygon []) ->
    stores coords newTurf (outer :: rest) ([], true)
| stores_zone zone :
    passesThrough newTurf zone ->
    stores coords newTurf zone ([zone], false).

End Editor.

Arguments Point num : clear implicits.
Arguments Position num : clear implicits.
Arguments Zone num : clear implicits.
Arguments ZoneSet num : clear implicits.
Arguments State num : clear implicits.
Arguments Polygon num : clear implicits.
Arguments Feature num : clear implicits.
Arguments Difference num : clear implicits.
Arguments Stored num : clear implicits.
Arguments Turf num : clear implicits.
Arguments mergeZone : simpl never.
Arguments handleClosePolygon : simpl never.

(** ** Instance: IEEE 754 binary64, the numbers the program runs on *)

(** The integer [n] of [Number.prototype.toFixed] for two fraction digits:
    the one nearest to [m * 2^e * 100], the larger of two equally near. *)
Definition hundredths (m : positive) (e : Z) : Z :=
  match e with
  | Zneg p => (Zpos m * 200 + 2 ^ Zpos p) / 2 ^ (Zpos p + 1)
  | _ => Zpos m * 100 * 2 ^ e
  end%Z.

(** [+a.toFixed(2)]: [toFixed] prints the decimal [n / 100] of the exact
    value of [a] (with the sign of [a], and [a] itself from 1e21 on or
    when it is not finite), and unary [+] reads it back as the nearest
    double. *)
Definition double_toFixed2 (a : float) : float :=
  match Prim2SF a with
  | S754_finite s m e =>
      if PrimFloat.leb 1e21 (PrimFloat.abs a) then a
      else match hundredths m e with
           | Zpos n =>
               SF2Prim (SFdiv prec emax (S754_finite s n 0) (S754_finite false 100 0))
           | _ => if s then PrimFloat.neg_zero else PrimFloat.zero
           end
  | S754_zero _ => PrimFloat.zero
  | _ => a
  end.

(** Arithmetic, [Math.sqrt] and the comparisons are those of IEEE 754.
    ECMAScript leaves [a ** 2] to the engine beyond the exact cases of
    zero, infinite and NaN bases; it is taken as the rounded product. *)
#[export] Instance JSDouble : Number float := {|
  nadd := PrimFloat.add;
  nsub := PrimFloat.sub;
  nmul := PrimFloat.mul;
  ndiv := PrimFloat.div;
  npow2 := fun a => PrimFloat.mul a a;
  nsqrt := PrimFloat.sqrt;
  nlt := PrimFloat.ltb;
  nne := fun a b => negb (PrimFloat.eqb a b);
  ntruthy := fun a => negb (PrimFloat.is_zero a || PrimFloat.is_nan a);
  toFixed2 := double_toFixed2;
  nlit := fun z => SF2Prim (binary_normalize prec emax z 0 false)
|}.

(** [Number.isFinite(a)]: neither NaN nor an infinity. *)
Definition isFinite (a : float) : bool :=
  match Prim2SF a with
  | S754_zero _ | S754_finite _ _ _ => true
  | _ => false
  end.

(** ** A stand-in for turf on doubles, to run the handlers on scenarios *)

Module Scenario.

(** The ring check of [polygon] in [@turf/helpers]: at least four
    positions, first and last equal. *)
Definition ringError (ring : list (Position float)) : option string :=
  if (List.length ring <? 4)%nat
  then Some "Each LinearRing of a Polygon must have 4 or more Positions."%string
  else match ring with
       | [] => None
       | first :: _ =>
           let last := List.last ring first in
           if nne (fst first) (fst last) || nne (snd first) (snd last)
           then Some "First and last Position are not equivalent."%string
           else None
       end.

Fixpoint firstRingError (rings : list (list (Position float))) : option string :=
  match rings with
  | [] => None
  | ring :: rings' =>
      match ringError ring with
      | Some message => Some message
      | None => firstRingError rings'
      end
  end.

Definition helpersPolygon (rings : list (list (Position float)))
  : Completion (Feature float) :=
  match firstRingError rings with
  | Some message => Throw (LibraryError message)
  | None => Normal {| geometry := Some {| coordinates := rings |} |}
  end.

(** Bounding box of the outer ring of a feature. *)
Record Box : Type := { minX : float; minY : float; maxX : float; maxY : float }.

Definition grow (b : Box) (c : Position float) : Box :=
  {| minX := if PrimFloat.ltb (fst c) (minX b) then fst c else minX b;
     minY := if PrimFloat.ltb (snd c) (minY b) then snd c else minY b;
     maxX := if PrimFloat.ltb (maxX b) (fst c) then fst c else maxX b;
     maxY := if PrimFloat.ltb (maxY b) (snd c) then snd c else maxY b |}.

Definition boxOf (f : Feature float) : option Box :=
  match geometry f with
  | Some {| coordinates := (c :: cs) :: _ |} =>
      Some (fold_left grow cs
              {| minX := fst c; minY := snd c; maxX := fst c; maxY := snd c |})
  | _ => None
  end.

Definition boxInside (a b : Feature float) : bool :=
  match boxOf a, boxOf b with
  | Some o, Some i =>
      PrimFloat.leb (minX o) (minX i) && PrimFloat.leb (maxX i) (maxX o) &&
      PrimFloat.leb (minY o) (minY i) && PrimFloat.leb (maxY i) (maxY o)
  | _, _ => false
  end.

Definition boxesMeet (a b : Feature float) : bool :=
  match boxOf a, boxOf b with
  | Some o, Some i =>
      PrimFloat.leb (minX o) (maxX i) && PrimFloat.leb (minX i) (maxX o) &&
      PrimFloat.leb (minY o) (maxY i) && PrimFloat.leb (minY i) (maxY o)
  | _, _ => false
  end.

(** Containment and overlap decided on the bounding boxes of the outer
    rings, which is the answer of turf on the scenarios below (the first
    polygon an axis-parallel rectangle, the second not inside one of its
    holes).  A second polygon whose box covers the first leaves nothing
    ([difference] answers [null]); for a partial overlap the scenario
    supplies the polygon that is left as [remainder]. *)
Definition boxTurf (remainder : list (list (Position float))) : Turf float := {|
  turfPolygon := helpersPolygon;
  booleanContains := fun a b => Normal (boxInside a b);
  booleanIntersects := fun a b => Normal (boxesMeet a b);
  difference := fun a b =>
    if boxInside b a then Normal (PolygonOrNull None)
    else Normal (PolygonOrNull
                   (Some {| geometry := Some {| coordinates := remainder |} |}))
|}.

(** The same stand-in for a new polygon that cuts the first in several
    pieces: [difference] answers a MultiPolygon, one polygon per piece,
    which the scenario supplies as [pieces]. *)
Definition splitTurf (pieces : list (list (list (Position float)))) : Turf float := {|
  turfPolygon := helpersPolygon;
  booleanContains := fun a b => Normal (boxInside a b);
  booleanIntersects := fun a b => Normal (boxesMeet a b);
  difference := fun a b =>
    if boxInside b a then Normal (PolygonOrNull None)
    else Normal (MultiPolygon pieces)
|}.

Definition pt (a b : float) : Point float := {| x := a; y := b |}.

Definition idle (zs : ZoneSet float) (polygon : list (Point float)) : State float :=
  {| currentPolygon := polygon; zones := zs; history := []; redoStack := [] |}.

(** The squares of the scenario of the specification. *)
Definition squareA : list (Point float) := [pt 0 0; pt 10 0; pt 10 10; pt 0 10].
Definition squareB : list (Point float) := [pt 2 2; pt 4 2; pt 4 4; pt 2 4].
Definition squareC : list (Point float) := [pt 20 20; pt 22 20; pt 22 22; pt 20 22].

(** [squareA] with [squareB] as a hole, as the containment branch stores it. *)
Definition zoneAB : Zone float :=
  [squareA ++ [pt 0 0]; squareB ++ [pt 2 2]].

(** A square across the upper right corner of [squareA], and what it
    leaves of [zoneAB]: an L-shaped outer ring and the hole. *)
Definition squareD : list (Point float) := [pt 8 8; pt 12 8; pt 12 12; pt 8 12].
Definition zoneAB_minus_D : list (list (Position float)) :=
  [[(0, 0); (10, 0); (10, 8); (8, 8); (8, 10); (0, 10); (0, 0)];
   [(2, 2); (4, 2); (4, 4); (2, 4); (2, 2)]]%float.

(** A square that covers [squareA]. *)
Definition squareE : list (Point float) :=
  [pt (-1) (-1); pt 11 (-1); pt 11 11; pt (-1) 11].

(** A triangle across the lower right corner of [squareA]; its long edge
    meets the bottom edge at x = 7 + 18/7 and the right edge at y = 0.5. *)
Definition triangleT : list (Point float) := [pt 7 (-3); pt 13 4; pt 13 (-3)].
Definition cutX : float := Eval vm_compute in (7 + 18 / 7)%float.
Definition squareA_minus_T : list (list (Position float)) :=
  [[(0, 0); (cutX, 0); (10, 0.5); (10, 10); (0, 10); (0, 0)]]%float.

(** A vertical strip across [squareA], and the two rectangles it leaves,
    left and right, each a polygon of one ring. *)
Definition stripS : list (Point float) := [pt 4 (-1); pt 6 (-1); pt 6 11; pt 4 11].
Definition squareA_minus_S : list (list (list (Position float))) :=
  [[[(0, 0); (4, 0); (4, 10); (0, 10); (0, 0)]];
   [[(6, 0); (10, 0); (10, 10); (6, 10); (6, 0)]]]%float.

(** Three vertices around the origin: the first a hair further than 5
    from it ([tiny] is 2^-30), the second at 5, the third far away; and a
    click 2^-600 right of the corner (0, 0) of [squareA]. *)
Definition tiny : float := (1 / 1073741824)%float.
Definition nearTie : ZoneSet float := [[[pt 5 tiny; pt 3 4; pt 40 40]]].
Definition besideOrigin : Point float := pt 0x1p-600 0.

(** Three clicks on an empty page, the third on the pixel of the first. *)
Definition sliver : list (Point float) := [pt 50 50; pt 90 50; pt 50 50].

(** The rings and features the closures of the scenarios hand to turf. *)
Definition featureOf (rings : list (list (Position float))) : Feature float :=
  {| geometry := Some {| coordinates := rings |} |}.

Definition ringA : list (Position float) := [(0, 0); (10, 0); (10, 10); (0, 10); (0, 0)]%float.
Definition ringB : list (Position float) := [(2, 2); (4, 2); (4, 4); (2, 4); (2, 2)]%float.
Definition ringC : list (Position float) :=
  [(20, 20); (22, 20); (22, 22); (20, 22); (20, 20)]%float.
Definition ringD : list (Position float) := [(8, 8); (12, 8); (12, 12); (8, 12); (8, 8)]%float.
Definition ringE : list (Position float) :=
  [(-1, -1); (11, -1); (11, 11); (-1, 11); (-1, -1)]%float.
Definition ringT : list (Position float) := [(7, -3); (13, 4); (13, -3); (7, -3)]%float.
Definition ringS : list (Position float) := [(4, -1); (6, -1); (6, 11); (4, 11); (4, -1)]%float.

(** The state after [squareC] is closed next to [zoneAB]. *)
Definition stateABC : State float :=
  {| currentPolygon := [];
     zones := [zoneAB; [squareC]];
     history := [[zoneAB]];
     redoStack := [] |}.

(** The three clicks that draw [sliver], from the initial state. *)
Definition drawSliver (turf : Turf float) : Completion (State float) :=
  s1 <- handleCanvasClick (idle [] []) (pt 50 50) ;;
  s2 <- handleCanvasClick s1 (pt 90 50) ;;
  handleCanvasClick s2 (pt 50 50).

Definition tooFewPositions : Exception :=
  LibraryError "Each LinearRing of a Polygon must have 4 or more Positions.".

End Scenario.

(** ** The rest of the component: session, export, drawing *)

Section Component.

Context {num : Type} `{Number num}.

(** The ZoneSets a session can move between with Undo and Redo, oldest
    first: the undo stack, the ZoneSet shown, the redo stack. *)
Definition timeline (st : State num) : list (ZoneSet num) :=
  history st ++ zones st :: redoStack st.

(** [onClick={() => setCurrentPolygon([])}] *)
Definition clearCurrentPolygon (st : State num) : State num :=
  {| currentPolygon := [];
     zones := zones st;
     history := history st;
     redoStack := redoStack st |}.

(** The entries of [zoneData], built by the Export button.  [zone[0]] of
    an empty zone is [undefined]. *)
Record ZoneData : Type := {
  zoneIndex : nat;
  outer : option (list (Point num));
  holes : list (list (Point num))
}.

(** [zones.map((zone, idx) => ...)], from index [idx] on. *)
Fixpoint exportFrom (idx : nat) (zs : ZoneSet num) : list ZoneData :=
  match zs with
  | [] => []
  | zone :: zs' =>
      {| zoneIndex := idx; outer := hd_error zone; holes := tl zone |}
      :: exportFrom (S idx) zs'
  end.

Definition exportZones (zs : ZoneSet num) : list ZoneData := exportFrom 0 zs.

(** *** Drawing, as the calls made on the 2D context *)

Inductive CanvasCall : Type :=
| beginPath
| moveTo (px py : num)
| lineTo (px py : num)
| closePath
| arcFullTurn (px py : num) (radius : Z)   (* [arc(px, py, radius, 0, 2 * Math.PI)] *)
| setFillStyle (style : string)
| setStrokeStyle (style : string)
| setLineWidth (width : Z)
| fillPath (rule : option string)          (* [fill()] or [fill(rule)] *)
| strokePath.

(** The body of [for (let ring of polygon)] in [drawPolygon]. *)
Definition drawRing (close : bool) (ring : list (Point num)) : list CanvasCall :=
  if (List.length ring <? 2)%nat then []
  else match ring with
       | [] => []
       | first :: others =>
           moveTo (x first) (y first)
           :: map (fun p => lineTo (x p) (y p)) others
           ++ (if close then [closePath] else [])
       end.

Definition drawPolygon (polygon : Zone num) (fill stroke : string) (close : bool)
  : list CanvasCall :=
  match polygon with
  | [] => []
  | outerRing :: _ =>
      if (List.length outerRing <? 2)%nat then []
      else beginPath
           :: flat_map (drawRing close) polygon
           ++ [setFillStyle fill; setStrokeStyle stroke; setLineWidth 2;
               fillPath (Some "evenodd"%string); strokePath]
  end.

Definition drawPoint (point : Point num) (color : string) : list CanvasCall :=
  [beginPath; arcFullTurn (x point) (y point) 4; setFillStyle color; fillPath None].

(** What [renderPDFPage] draws over the page once it is rendered (lines 60
    to 68). *)
Definition drawOverlay (polygons : ZoneSet num) (current : list (Point num))
  : list CanvasCall :=
  flat_map (fun polygon =>
              drawPolygon polygon "rgba(71, 145, 170, 0.4)" "#4682B4" true) polygons
  ++ (if (1 <? List.length current)%nat
      then drawPolygon [current] "rgba(0,0,0,0)" "#4682B4" false
      else [])
  ++ flat_map (fun p => drawPoint p "red") current.

(** The points a sequence of calls moves or draws a line to, in order. *)
Definition lineTargets (calls : list CanvasCall) : list (Point num) :=
  flat_map (fun c => match c with
                     | moveTo px py | lineTo px py => [{| x := px; y := py |}]
                     | _ => []
                     end) calls.

Definition isClose (c : CanvasCall) : bool :=
  match c with closePath => true | _ => false end.

Definition isArc (c : CanvasCall) : bool :=
  match c with arcFullTurn _ _ _ => true | _ => false end.

(** The rings [drawPolygon] traces: none when the polygon is empty or its
    outer ring has fewer than two points, else those of two points or more. *)
Definition tracedRings (polygon : Zone num) : list (list (Point num)) :=
  match polygon with
  | [] => []
  | outerRing :: _ =>
      if (List.length outerRing <? 2)%nat then []
      else filter (fun ring => negb (List.length ring <? 2)%nat) polygon
  end.

(** *** The session: the commands of the page *)

Context {turf : Turf num}.

Inductive Event : Type :=
| Click (rawPoint : Point num)   (* [onClick] of the canvas *)
| DoubleClick                    (* [onDoubleClick] of the canvas *)
| ClearCurrent                   (* button Clear Current Polygon *)
| Undo                           (* button Undo *)
| Redo.                          (* button Redo *)

Definition dispatch (st : State num) (ev : Event) : Completion (State num) :=
  match ev with
  | Click rawPoint => handleCanvasClick st rawPoint
  | DoubleClick => handleCanvasDoubleClick st
  | ClearCurrent => Normal (clearCurrentPolygon st)
  | Undo => Normal (handleUndo st)
  | Redo => Normal (handleRedo st)
  end.

(** The [useState] initial values. *)
Definition initialState : State num :=
  {| currentPolygon := []; zones := []; history := []; redoStack := [] |}.

(** The states a session goes through: each handler that returns sets the
    state the next one reads.  A session is followed as long as its
    ZoneSets are of the declared type; a closure that is [Mistyped] leads to
    no state here. *)
Inductive Reachable : State num -> Prop :=
| reach_initial : Reachable initialState
| reach_event st ev st' :
    Reachable st -> dispatch st ev = Normal st' -> Reachable st'.

End Component.

Arguments ZoneData num : clear implicits.
Arguments CanvasCall num : clear implicits.
Arguments Event num : clear implicits.

(** More states of the scenarios, on doubles. *)
Module Gallery.

Import Scenario.

(** After [squareA] is drawn on the blank page and closed by a double click. *)
Definition drawnA : State float :=
  {| currentPolygon := []; zones := [[squareA]]; history := [[]]; redoStack := [] |}.

(** After [squareA], [squareB] inside it and [squareC] apart are closed. *)
Definition drawnABC : State float :=
  {| currentPolygon := [];
     zones := [zoneAB; [squareC]];
     history := [[]; [[squareA]]; [zoneAB]];
     redoStack := [] |}.

(** Two points in progress next to the zone [squareA]. *)
Definition twoPoints : State float := idle [[squareA]] [pt 50 50; pt 90 50].

End Gallery.

(** * Properties *)

(** ** The zone loop *)

Section LoopFacts.

Context {num : Type} `{Number num} {turf : Turf num}.

Implicit Types (coords : list (Position num)) (newTurf : Feature num).
Implicit Types (zs pushed : ZoneSet num) (zone : Zone num) (st : State num).
Implicit Types (acc : list (Stored num)).

Lemma bind_Normal {A B} (c : Completion A) (k : A -> Completion B) (b : B) :
  bind c k = Normal b -> exists a, c = Normal a /\ k a = Normal b.
Proof. destruct c as [a|e|]; simpl; intros E; [eauto | discriminate | discriminate]. Qed.

Lemma forOf_app {A S} (body : S -> A -> Completion S) (l1 l2 : list A) (s : S) :
  forOf body (l1 ++ l2) s = bind (forOf body l1 s) (forOf body l2).
Proof.
  revert s; induction l1 as [|a l1 IH]; intros s; simpl; [reflexivity|].
  destruct (body s a) as [s'|e|]; simpl; [apply IH | reflexivity | reflexivity].
Qed.

Lemma typedZones_map zs : typedZones (map (@WellTyped num) zs) = Some zs.
Proof. induction zs as [|zone zs IH]; simpl; [reflexivity | now rewrite IH]. Qed.

Lemma typedZones_Some acc zs : typedZones acc = Some zs -> acc = map (@WellTyped num) zs.
Proof.
  revert zs; induction acc as [|[zone|entries] acc IH]; intros zs; simpl.
  - now intros [= <-].
  - destruct (typedZones acc) as [zs'|]; simpl; [|discriminate].
    intros [= <-]. simpl. now rewrite (IH zs' eq_refl).
  - discriminate.
Qed.

Lemma WellTyped_map_inj zs zs' :
  map (@WellTyped num) zs = map (@WellTyped num) zs' -> zs = zs'.
Proof.
  revert zs'; induction zs as [|zone zs IH]; intros [|zone' zs']; simpl;
    try discriminate; [reflexivity|].
  intros [= -> E]. now rewrite (IH _ E).
Qed.

(** An iteration only pushes onto [updatedZones] and only raises
    [overlapHandled]: run on any pair, it does what it does on the empty
    one, shifted. *)
Lemma mergeZone_shift coords newTurf zone acc handled :
  mergeZone coords newTurf (acc, handled) zone =
  bind (mergeZone coords newTurf ([], false) zone)
       (fun r => Normal (acc ++ fst r, handled || snd r)).
Proof.
  unfold mergeZone. destruct zone as [|outer rest]; [reflexivity|].
  destruct (pushFirstIfOpen _) as [flatOuter| |]; simpl; try reflexivity.
  destruct (turfPolygon _) as [existingTurf| |]; simpl; try reflexivity.
  destruct (booleanContains _ _) as [[|]| |]; simpl; try reflexivity.
  - now rewrite orb_true_r.
  - destruct (booleanIntersects _ _) as [[|]| |]; simpl; try reflexivity.
    + destruct (difference _ _) as [[clipped|[|polygon polygons]]| |]; simpl;
        try reflexivity.
      * destruct (clippedRings clipped); simpl;
          now rewrite ?app_nil_r, orb_true_r.
      * now rewrite app_nil_r, orb_true_r.
      * now rewrite orb_true_r.
    + now rewrite orb_false_r.
Qed.

Lemma forOf_mergeZone_shift coords newTurf zs acc handled :
  forOf (mergeZone coords newTurf) zs (acc, handled) =
  bind (forOf (mergeZone coords newTurf) zs ([], false))
       (fun r => Normal (acc ++ fst r, handled || snd r)).
Proof.
  revert acc handled; induction zs as [|zone zs IH]; intros acc handled; simpl.
  - now rewrite app_nil_r, orb_false_r.
  - rewrite mergeZone_shift.
    destruct (mergeZone coords newTurf ([], false) zone) as [[p1 h1]|e|]; simpl;
      try reflexivity.
    rewrite IH, (IH p1 h1).
    destruct (forOf _ zs _) as [[p2 h2]|e|]; simpl; try reflexivity.
    now rewrite app_assoc, orb_assoc.
Qed.

(** The loop over [before ++ zone :: after], from what each part does alone. *)
Lemma forOf_mergeZone_split coords newTurf before zone after p1 h1 p h p2 h2 :
  mergesTo coords newTurf before p1 h1 ->
  mergeZone coords newTurf ([], false) zone = Normal (map WellTyped p, h) ->
  mergesTo coords newTurf after p2 h2 ->
  mergesTo coords newTurf (before ++ zone :: after) (p1 ++ p ++ p2) (h1 || h || h2).
Proof.
  unfold mergesTo; intros E1 E E2.
  rewrite forOf_app, E1; simpl.
  rewrite mergeZone_shift, E; simpl.
  rewrite forOf_mergeZone_shift, E2; simpl.
  now rewrite !map_app, <- app_assoc.
Qed.

Lemma mergeZone_contained coords newTurf outer rest flatOuter existingTurf :
  reachesTests outer rest flatOuter existingTurf ->
  isContained existingTurf newTurf ->
  mergeZone coords newTurf ([], false) (outer :: rest) =
  Normal (map WellTyped
            [map toPoint flatOuter ::
             map (map toPoint) (map (map roundPoint) rest ++ [coords])], true).
Proof.
  intros [E1 E2] E3; red in E3. unfold mergeZone.
  rewrite E1; simpl. rewrite E2; simpl. now rewrite E3.
Qed.

Lemma mergeZone_clipped coords newTurf outer rest flatOuter existingTurf clipped :
  reachesTests outer rest flatOuter existingTurf ->
  isClipped existingTurf newTurf clipped ->
  mergeZone coords newTurf ([], false) (outer :: rest) =
  Normal (map WellTyped
            match clippedRings clipped with
            | [] => []
            | rings => [map (map toPoint) rings]
            end, true).
Proof.
  intros [E1 E2] (E3 & E4 & E5). unfold mergeZone.
  rewrite E1; simpl. rewrite E2; simpl. rewrite E3; simpl. rewrite E4; simpl.
  rewrite E5; simpl. now destruct (clippedRings clipped).
Qed.

Lemma mergeZone_apart coords newTurf zone :
  passesThrough newTurf zone ->
  mergeZone coords newTurf ([], false) zone = Normal (map WellTyped [zone], false).
Proof.
  intros (outer & rest & flatOuter & existingTurf & -> & [E1 E2] & [E3 E4]).
  unfold mergeZone.
  rewrite E1; simpl. rewrite E2; simpl. rewrite E3; simpl. now rewrite E4.
Qed.

Lemma forOf_mergeZone_apart coords newTurf zs :
  Forall (passesThrough newTurf) zs ->
  mergesTo coords newTurf zs zs false.
Proof.
  unfold mergesTo; induction 1 as [|zone zs Hz _ IH]; simpl; [reflexivity|].
  rewrite (mergeZone_apart coords Hz); simpl.
  rewrite forOf_mergeZone_shift, IH; reflexivity.
Qed.

(** What a closure that reaches the end of the loop returns. *)
Lemma handleClosePolygon_Normal st coords newTurf pushed handled :
  entersLoop st coords newTurf ->
  mergesTo coords newTurf (zones st) pushed handled ->
  handleClosePolygon st =
  Normal {| history := history st ++ [zones st];
            redoStack := [];
            zones := if handled then pushed else pushed ++ [[currentPolygon st]];
            currentPolygon := [] |}.
Proof.
  intros [E1 E2] E3; red in E3. unfold handleClosePolygon, mergedZones.
  rewrite E1; simpl. rewrite E2; simpl. rewrite E3; simpl.
  destruct handled.
  - now rewrite typedZones_map.
  - change [WellTyped [currentPolygon st]] with (map (@WellTyped num) [[currentPolygon st]]).
    now rewrite <- map_app, typedZones_map.
Qed.

(** Conversely, a closure that returns went through the loop, and every
    element the loop pushed was a zone. *)
Lemma handleClosePolygon_inv st st' :
  handleClosePolygon st = Normal st' ->
  exists coords newTurf pushed handled,
    entersLoop st coords newTurf /\
    mergesTo coords newTurf (zones st) pushed handled /\
    st' = {| history := history st ++ [zones st];
             redoStack := [];
             zones := if handled then pushed else pushed ++ [[currentPolygon st]];
             currentPolygon := [] |}.
Proof.
  unfold handleClosePolygon, mergedZones; intros E.
  apply bind_Normal in E as (updated & E0 & E).
  apply bind_Normal in E0 as (coords & E1 & E0).
  apply bind_Normal in E0 as (newTurf & E2 & E0).
  apply bind_Normal in E0 as ([acc handled] & E3 & E0).
  injection E0 as <-.
  destruct (typedZones _) as [typed|] eqn:Et; [|discriminate].
  injection E as <-. apply typedZones_Some in Et.
  destruct handled.
  - subst acc. exists coords, newTurf, typed, true.
    repeat split; assumption.
  - symmetry in Et. apply map_eq_app in Et as (p1 & p2 & -> & Ea & Eb).
    destruct p2 as [|z [|? ?]]; try discriminate. injection Eb as ->.
    subst acc. exists coords, newTurf, p1, false.
    repeat split; assumption.
Qed.

End LoopFacts.

(** ** Closing a polygon *)

Section ClosureFacts.

Context {num : Type} `{Number num} {turf : Turf num}.

Implicit Types (coords : list (Position num)) (newTurf : Feature num).
Implicit Types (zs pushed : ZoneSet num) (zone : Zone num) (st : State num).

Lemma pushFirstIfOpen_shape (c c' : list (Position num)) :
  pushFirstIfOpen c = Normal c' ->
  c' = c \/ exists first, hd_error c = Some first /\ c' = c ++ [first].
Proof.
  destruct c as [|first c]; simpl; [discriminate|].
  destruct (_ || _); intros [= <-]; [right; eauto | left; reflexivity].
Qed.

Lemma WellTyped_singleton pushed zone :
  [WellTyped zone] = map (@WellTyped num) pushed -> pushed = [zone].
Proof.
  destruct pushed as [|z [|? ?]]; simpl; try discriminate. now intros [= ->].
Qed.

Lemma mergeZone_stores coords newTurf zone pushed handled :
  mergeZone coords newTurf ([], false) zone = Normal (map WellTyped pushed, handled) ->
  stores coords newTurf zone (pushed, handled).
Proof.
  unfold mergeZone. destruct zone as [|outer rest]; [discriminate|].
  intros E.
  apply bind_Normal in E as (flatOuter & E1 & E).
  apply bind_Normal in E as (existingTurf & E2 & E).
  apply bind_Normal in E as (contained & E3 & E).
  assert (R : reachesTests outer rest flatOuter existingTurf) by (split; assumption).
  destruct contained.
  - injection E as Ep <-. apply WellTyped_singleton in Ep as ->.
    now apply stores_hole with existingTurf.
  - apply bind_Normal in E as (crossing & E4 & E).
    destruct crossing.
    + apply bind_Normal in E as (result & E5 & E).
      destruct result as [clipped|[|polygon polygons]].
      * assert (C : isClipped existingTurf newTurf clipped) by (repeat split; assumption).
        destruct (clippedRings clipped) as [|ring rings] eqn:Er; injection E as Ep <-.
        -- destruct pushed; [|discriminate].
           now apply stores_nothing with flatOuter existingTurf clipped.
        -- apply WellTyped_singleton in Ep as ->.
           now apply stores_remainder with flatOuter existingTurf clipped.
      * injection E as Ep <-. destruct pushed; [|discriminate].
        now apply stores_split with flatOuter existingTurf.
      * injection E as Ep _. destruct pushed as [|? ?]; discriminate.
    + injection E as Ep <-. apply WellTyped_singleton in Ep as ->.
      apply stores_zone.
      exists outer, rest, flatOuter, existingTurf. repeat split; assumption.
Qed.

Lemma mergesTo_stores coords newTurf zs pushed handled :
  mergesTo coords newTurf zs pushed handled ->
  exists parts,
    Forall2 (stores coords newTurf) zs parts /\
    pushed = List.concat (map fst parts) /\
    handled = existsb snd parts.
Proof.
  unfold mergesTo. revert pushed handled.
  induction zs as [|zone zs IH]; intros pushed handled; simpl.
  - intros [= Ep <-]. destruct pushed; [|discriminate].
    exists []. repeat split. constructor.
  - intros E. apply bind_Normal in E as ([a1 h1] & E1 & E).
    rewrite forOf_mergeZone_shift in E.
    apply bind_Normal in E as ([a2 h2] & E2 & E).
    injection E as Ep <-. cbn [fst snd] in Ep.
    symmetry in Ep. apply map_eq_app in Ep as (p1 & p2 & -> & <- & <-).
    destruct (IH _ _ E2) as (parts & F & -> & ->).
    exists ((p1, h1) :: parts). repeat split.
    constructor; [now apply mergeZone_stores | assumption].
Qed.

Lemma mergeZone_throws coords newTurf zone e s :
  throwsInZone newTurf zone e ->
  mergeZone coords newTurf s zone = Throw e.
Proof.
  destruct s as [acc handled].
  intros T; unfold mergeZone; destruct T as
    [outer rest flatOuter e E1 E2
    |outer rest flatOuter existingTurf e [E1 E2] E3
    |outer rest flatOuter existingTurf e [E1 E2] E3 E4
    |outer rest flatOuter existingTurf e [E1 E2] E3 E4 E5];
    rewrite E1; simpl; rewrite E2; simpl; try reflexivity;
    rewrite E3; simpl; try reflexivity;
    rewrite E4; simpl; try reflexivity;
    rewrite E5; reflexivity.
Qed.

End ClosureFacts.

(** ** The merge policy *)

Section MergePolicy.

Context {num : Type} `{Number num} {turf : Turf num}.

Implicit Types (coords : list (Position num)) (newTurf : Feature num).
Implicit Types (zs pushed : ZoneSet num) (zone : Zone num) (st : State num).

(** C2, as amended.  When the new polygon crosses an existing zone without
    being contained in it and [difference] returns a Polygon feature with
    at least one ring, that zone is replaced, at its place in the output,
    by ONE zone whose rings are all the rings of the result of
    [difference], in their order: the first as the outer ring, the others
    as its holes.  (The zones before and after it are taken through
    branches that store zones, [mergesTo]; a MultiPolygon result is not
    covered.) *)
Theorem crossed_zone_replaced_by_one_zone
    st coords newTurf before outer rest after flatOuter existingTurf clipped
    p1 h1 p2 h2 :
  entersLoop st coords newTurf ->
  zones st = before ++ (outer :: rest) :: after ->
  mergesTo coords newTurf before p1 h1 ->
  mergesTo coords newTurf after p2 h2 ->
  reachesTests outer rest flatOuter existingTurf ->
  isClipped existingTurf newTurf clipped ->
  clippedRings clipped <> [] ->
  exists st',
    handleClosePolygon st = Normal st' /\
    zones st' = p1 ++ [map (map toPoint) (clippedRings clipped)] ++ p2.
Proof.
  intros Hin Hz H1 H2 Hr Hc Hne.
  pose proof (mergeZone_clipped coords Hr Hc) as Hm.
  destruct (clippedRings clipped) as [|ring rings] eqn:Er; [congruence|].
  pose proof (forOf_mergeZone_split _ _ H1 Hm H2) as Hsplit.
  assert (Hall : mergesTo coords newTurf (zones st) (p1 ++ _ ++ p2) (h1 || true || h2))
    by (rewrite Hz; exact Hsplit).
  rewrite (handleClosePolygon_Normal Hin Hall).
  eexists; split; [reflexivity|]. simpl.
  now rewrite orb_true_r.
Qed.

(** C3, as amended.  When the new polygon is contained in an existing zone,
    that zone is replaced, at its place in the output, by the zone whose
    outer ring is the old outer ring rounded to two decimals and closed
    ([flatOuter]), and whose holes are the old holes, rounded, followed by
    the rounded and closed ring of the new polygon ([coords]) as the last
    hole.  The outer ring repeats the rounded old one and adds at most a
    copy of its first point; it is the old outer ring itself when that was
    already rounded and closed. *)
Theorem contained_polygon_becomes_last_hole
    st coords newTurf before outer rest after flatOuter existingTurf
    p1 h1 p2 h2 :
  entersLoop st coords newTurf ->
  zones st = before ++ (outer :: rest) :: after ->
  mergesTo coords newTurf before p1 h1 ->
  mergesTo coords newTurf after p2 h2 ->
  reachesTests outer rest flatOuter existingTurf ->
  isContained existingTurf newTurf ->
  exists st',
    handleClosePolygon st = Normal st' /\
    zones st' =
      p1 ++ [map toPoint flatOuter ::
             map (map toPoint) (map (map roundPoint) rest) ++ [map toPoint coords]]
         ++ p2 /\
    (flatOuter = map roundPoint outer \/
     exists first, hd_error (map roundPoint outer) = Some first /\
                   flatOuter = map roundPoint outer ++ [first]) /\
    (flatOuter = map roundPoint outer ->
     (forall p, In p outer -> toPoint (roundPoint p) = p) ->
     map toPoint flatOuter = outer).
Proof.
  intros Hin Hz H1 H2 Hr Hc.
  pose proof (mergeZone_contained coords Hr Hc) as Hm.
  pose proof (forOf_mergeZone_split _ _ H1 Hm H2) as Hsplit.
  assert (Hall : mergesTo coords newTurf (zones st) (p1 ++ _ ++ p2) (h1 || true || h2))
    by (rewrite Hz; exact Hsplit).
  rewrite (handleClosePolygon_Normal Hin Hall).
  eexists; split; [reflexivity|]. simpl.
  rewrite orb_true_r, map_app. simpl.
  split; [reflexivity|]. split.
  - destruct Hr as [Hr _]. now apply pushFirstIfOpen_shape.
  - intros -> Hfix. rewrite map_map.
    rewrite <- (map_id outer) at 2. now apply map_ext_in.
Qed.

(** C6.  When the new polygon crosses an existing zone and [difference]
    leaves no ring (the result is [null], has no geometry, or has an empty
    coordinate array), the zone is dropped: the output is what the zones
    before it and the zones after it contribute, with no zone for it and
    without the new polygon appended. *)
Theorem covered_zone_dropped
    st coords newTurf before outer rest after flatOuter existingTurf clipped
    p1 h1 p2 h2 :
  entersLoop st coords newTurf ->
  zones st = before ++ (outer :: rest) :: after ->
  mergesTo coords newTurf before p1 h1 ->
  mergesTo coords newTurf after p2 h2 ->
  reachesTests outer rest flatOuter existingTurf ->
  isClipped existingTurf newTurf clipped ->
  clippedRings clipped = [] ->
  exists st',
    handleClosePolygon st = Normal st' /\
    zones st' = p1 ++ p2.
Proof.
  intros Hin Hz H1 H2 Hr Hc He.
  pose proof (mergeZone_clipped coords Hr Hc) as Hm. rewrite He in Hm.
  pose proof (forOf_mergeZone_split _ _ H1 Hm H2) as Hsplit.
  assert (Hall : mergesTo coords newTurf (zones st) (p1 ++ _ ++ p2) (h1 || true || h2))
    by (rewrite Hz; exact Hsplit).
  rewrite (handleClosePolygon_Normal Hin Hall).
  eexists; split; [reflexivity|]. simpl.
  now rewrite orb_true_r.
Qed.

(** C7.  When the new polygon is neither contained in nor crossing any
    existing zone, the output is the input ZoneSet, every zone unchanged
    and in order, followed by one zone whose only ring is the polygon as
    drawn; its size is the input's plus one. *)
Theorem disjoint_polygon_appended st coords newTurf :
  entersLoop st coords newTurf ->
  Forall (passesThrough newTurf) (zones st) ->
  exists st',
    handleClosePolygon st = Normal st' /\
    zones st' = zones st ++ [[currentPolygon st]] /\
    List.length (zones st') = S (List.length (zones st)).
Proof.
  intros Hin Hall.
  rewrite (handleClosePolygon_Normal Hin (forOf_mergeZone_apart coords Hall)).
  eexists; split; [reflexivity|]. simpl. split; [reflexivity|].
  rewrite length_app. simpl. lia.
Qed.


(** C4, as amended.  When a call into the polygon library throws during a
    closure, [handleClosePolygon] does not catch it: the closure completes
    abruptly with that exception, and none of its state updates is made. *)
Theorem library_exception_propagates st e :
  libraryThrows st e ->
  handleClosePolygon st = Throw e.
Proof.
  intros [coords E1 E2 | coords newTurf before zone after s [E1 E2] Hz Hb T];
    unfold handleClosePolygon, mergedZones; rewrite E1; simpl; rewrite E2; simpl.
  - reflexivity.
  - rewrite Hz, forOf_app, Hb. simpl.
    now rewrite (mergeZone_throws coords s T).
Qed.

(** C10, as amended.  A closure that completes stores, for each existing
    zone in order, what [stores] lists for its branch: in the containment
    branch the rounded and closed outer ring, the rounded old holes and the
    rounded and closed new ring; in the intersection branch the rings of
    the Polygon that [difference] returned, as they are, neither rounded
    nor closed by the program; nothing for a covered zone or an empty
    MultiPolygon; the zone itself, untouched, when the polygon is apart
    from it.  When no zone raised [overlapHandled],
    the polygon is appended as drawn, neither rounded nor closed. *)
Theorem stored_rings_by_branch st st' :
  handleClosePolygon st = Normal st' ->
  exists coords newTurf parts,
    entersLoop st coords newTurf /\
    Forall2 (stores coords newTurf) (zones st) parts /\
    zones st' =
      List.concat (map fst parts) ++
      (if existsb snd parts then [] else [[currentPolygon st]]).
Proof.
  intros E.
  apply handleClosePolygon_inv in E as (coords & newTurf & pushed & handled & Hin & Hm & ->).
  apply mergesTo_stores in Hm as (parts & F & -> & ->).
  exists coords, newTurf, parts. repeat split; try assumption; try apply Hin.
  simpl. destruct (existsb snd parts); [now rewrite app_nil_r | reflexivity].
Qed.

End MergePolicy.

(** ** Edit history *)

Section History.

Context {num : Type} `{Number num} {turf : Turf num}.

Implicit Types (st : State num) (zs : ZoneSet num).

(** Undo on a non-empty stack pops its last snapshot. *)
Lemma handleUndo_pop st (older : list (ZoneSet num)) zs :
  history st = older ++ [zs] ->
  handleUndo st =
  {| history := older;
     redoStack := zones st :: redoStack st;
     zones := zs;
     currentPolygon := currentPolygon st |}.
Proof.
  intros E; unfold handleUndo; rewrite E.
  destruct older as [|oldest older]; [reflexivity|].
  cbn [app]. change (oldest :: older ++ [zs]) with ((oldest :: older) ++ [zs]).
  now rewrite last_last, removelast_last.
Qed.


(** C8.  Undo on an empty undo stack and redo on an empty redo stack return
    the state they were given: ZoneSet, undo stack, redo stack (and the
    polygon in progress) are unchanged, and nothing is thrown. *)
Theorem empty_stack_is_noop st :
  (history st = [] -> handleUndo st = st) /\
  (redoStack st = [] -> handleRedo st = st).
Proof.
  split; intros E; [unfold handleUndo | unfold handleRedo]; now rewrite E.
Qed.

End History.

(** ** The scenarios, run on doubles *)

Section Scenarios.

Import Scenario.

Local Ltac run := vm_compute; reflexivity.
Local Ltac path := repeat split; run.

(** [+a.toFixed(2)] on doubles: a tie goes up in magnitude, the sign
    survives a result of zero, and a value past two decimals is cut. *)
Example toFixed2_samples :
  toFixed2 0.125%float = (13 / 100)%float /\
  toFixed2 (-0.125)%float = (-13 / 100)%float /\
  toFixed2 2.5%float = 2.5%float /\
  toFixed2 0.00390625%float = 0%float /\
  (1 / toFixed2 (-0.00390625))%float = PrimFloat.neg_infinity /\
  toFixed2 (67 / 7)%float = (957 / 100)%float /\
  toFixed2 123456789.125%float = (12345678913 / 100)%float.
Proof. repeat split; run. Qed.

(** The scenario of the specification, step by step. *)
Example scenario_first_square :
  handleClosePolygon (turf := boxTurf []) (idle [] squareA) =
  Normal {| currentPolygon := []; zones := [[squareA]];
            history := [[]]; redoStack := [] |}.
Proof. run. Qed.

Example scenario_square_in_square :
  handleClosePolygon (turf := boxTurf []) (idle [[squareA]] squareB) =
  Normal {| currentPolygon := []; zones := [zoneAB];
            history := [[[squareA]]]; redoStack := [] |}.
Proof. run. Qed.

Example scenario_square_apart :
  handleClosePolygon (turf := boxTurf []) (idle [zoneAB] squareC) = Normal stateABC.
Proof. run. Qed.

Lemma crossed_zone_replaced_by_one_zone_witness :
  exists st',
    handleClosePolygon (turf := boxTurf zoneAB_minus_D) (idle [zoneAB] squareD)
      = Normal st' /\
    zones st' = [] ++ [map (map toPoint) zoneAB_minus_D] ++ [].
Proof.
  apply (crossed_zone_replaced_by_one_zone
           (turf := boxTurf zoneAB_minus_D) (st := idle [zoneAB] squareD)
           (coords := ringD) (newTurf := featureOf [ringD])
           (before := []) (after := [])
           (outer := squareA ++ [pt 0 0]) (rest := [squareB ++ [pt 2 2]])
           (flatOuter := ringA) (existingTurf := featureOf [ringA; ringB])
           (clipped := Some (featureOf zoneAB_minus_D))
           (h1 := false) (h2 := false)); try path.
  discriminate.
Defined.

(** C2, as stated, fails twice.  [squareD] crosses [zoneAB], [difference]
    leaves two rings (an outer ring and the hole), and the output holds one
    zone with both rings, not one zone per ring.  And when the subtraction
    fragments the region, [stripS] cutting [squareA] in two rectangles that
    [difference] returns as a MultiPolygon of two polygons, the closure
    stores neither two zones nor one per ring, but a single element with an
    entry [{ x: ring[0], y: ring[1] }] per piece, which is no zone. *)
Lemma crossed_zone_not_one_zone_per_ring :
  (isClipped (turf := boxTurf zoneAB_minus_D)
     (featureOf [ringA; ringB]) (featureOf [ringD])
     (Some (featureOf zoneAB_minus_D)) /\
   List.length zoneAB_minus_D = 2 /\
   exists st',
     handleClosePolygon (turf := boxTurf zoneAB_minus_D) (idle [zoneAB] squareD)
       = Normal st' /\
     List.length (zones st') = 1 /\
     zones st' <> map (fun ring => [map toPoint ring]) zoneAB_minus_D) /\
  (booleanContains (Turf := splitTurf squareA_minus_S)
     (featureOf [ringA]) (featureOf [ringS]) = Normal false /\
   booleanIntersects (Turf := splitTurf squareA_minus_S)
     (featureOf [ringA]) (featureOf [ringS]) = Normal true /\
   difference (Turf := splitTurf squareA_minus_S)
     (featureOf [ringA]) (featureOf [ringS]) = Normal (MultiPolygon squareA_minus_S) /\
   List.length squareA_minus_S = 2 /\
   mergedZones (turf := splitTurf squareA_minus_S) (idle [[squareA]] stripS) =
     Normal [Garbled [[(Some (0, 0), Some (4, 0))];
                      [(Some (6, 0), Some (10, 0))]]%float] /\
   handleClosePolygon (turf := splitTurf squareA_minus_S) (idle [[squareA]] stripS) =
     Mistyped).
Proof.
  split.
  - split; [path|]. split; [reflexivity|].
    eexists; split; [lazy; reflexivity|]. split; [reflexivity|].
    intros E; vm_compute in E; discriminate.
  - path.
Qed.

Lemma contained_polygon_becomes_last_hole_witness :
  exists st',
    handleClosePolygon (turf := boxTurf []) (idle [[squareA]] squareB)
      = Normal st' /\
    zones st' =
      [] ++ [map toPoint ringA ::
             map (map toPoint) (map (map roundPoint) []) ++ [map toPoint ringB]]
         ++ [] /\
    (ringA = map roundPoint squareA \/
     exists first, hd_error (map roundPoint squareA) = Some first /\
                   ringA = map roundPoint squareA ++ [first]) /\
    (ringA = map roundPoint squareA ->
     (forall p, In p squareA -> toPoint (roundPoint p) = p) ->
     map toPoint ringA = squareA).
Proof.
  apply (contained_polygon_becomes_last_hole
           (turf := boxTurf []) (st := idle [[squareA]] squareB)
           (coords := ringB) (newTurf := featureOf [ringB])
           (before := []) (after := [])
           (outer := squareA) (rest := [])
           (flatOuter := ringA) (existingTurf := featureOf [ringA])
           (h1 := false) (h2 := false)); path.
Defined.

(** C3, as stated, fails: [squareB] lies inside the zone [[squareA]], and
    the merged zone is neither [squareA] followed by [squareB]: its outer
    ring is [squareA] with the first point repeated at the end, and so is
    its hole. *)
Lemma contained_outer_ring_rewritten :
  isContained (turf := boxTurf []) (featureOf [ringA]) (featureOf [ringB]) /\
  exists st',
    handleClosePolygon (turf := boxTurf []) (idle [[squareA]] squareB)
      = Normal st' /\
    zones st' = [[squareA ++ [pt 0 0]; squareB ++ [pt 2 2]]] /\
    zones st' <> [[squareA; squareB]] /\
    hd [] (hd [] (zones st')) <> squareA.
Proof.
  split; [run|].
  eexists; split; [lazy; reflexivity|]. split; [reflexivity|].
  split; intros E; vm_compute in E; discriminate.
Qed.

Lemma covered_zone_dropped_witness :
  exists st',
    handleClosePolygon (turf := boxTurf []) (idle [zoneAB] squareE) = Normal st' /\
    zones st' = [] ++ [].
Proof.
  apply (covered_zone_dropped
           (turf := boxTurf []) (st := idle [zoneAB] squareE)
           (coords := ringE) (newTurf := featureOf [ringE])
           (before := []) (after := [])
           (outer := squareA ++ [pt 0 0]) (rest := [squareB ++ [pt 2 2]])
           (flatOuter := ringA) (existingTurf := featureOf [ringA; ringB])
           (clipped := None)
           (h1 := false) (h2 := false)); path.
Defined.

Lemma disjoint_polygon_appended_witness :
  exists st',
    handleClosePolygon (turf := boxTurf []) (idle [zoneAB] squareC) = Normal st' /\
    zones st' = [zoneAB] ++ [[squareC]] /\
    List.length (zones st') = 2%nat.
Proof.
  apply (disjoint_polygon_appended
           (turf := boxTurf []) (st := idle [zoneAB] squareC)
           (coords := ringC) (newTurf := featureOf [ringC])); [path|].
  constructor; [|constructor].
  exists (squareA ++ [pt 0 0]), [squareB ++ [pt 2 2]], ringA, (featureOf [ringA; ringB]).
  path.
Defined.


Lemma library_exception_propagates_witness :
  handleClosePolygon (turf := boxTurf []) (idle [] sliver) = Throw tooFewPositions.
Proof.
  apply library_exception_propagates.
  apply throws_on_new with (coords := [(50, 50); (90, 50); (50, 50)]%float); run.
Defined.

(** C4, as stated, fails: three clicks, the last on the pixel of the first,
    draw [sliver]; the double click that closes it makes [polygon] throw,
    and the closure ends with that exception instead of the state in which
    [sliver] is a new zone. *)
Lemma sliver_closure_throws :
  drawSliver (boxTurf []) = Normal (idle [] sliver) /\
  libraryThrows (turf := boxTurf []) (idle [] sliver) tooFewPositions /\
  handleCanvasDoubleClick (turf := boxTurf []) (idle [] sliver)
    = Throw tooFewPositions /\
  handleCanvasDoubleClick (turf := boxTurf []) (idle [] sliver)
    <> Normal {| currentPolygon := []; zones := [[sliver]];
                 history := [[]]; redoStack := [] |}.
Proof.
  split; [run|]. split; [|split; [run|]].
  - apply throws_on_new with (coords := [(50, 50); (90, 50); (50, 50)]%float); run.
  - intros E; vm_compute in E; discriminate.
Qed.


Lemma empty_stack_is_noop_witness :
  handleUndo (idle [zoneAB] squareC) = idle [zoneAB] squareC /\
  handleRedo (idle [zoneAB] squareC) = idle [zoneAB] squareC.
Proof.
  split; apply (empty_stack_is_noop (idle [zoneAB] squareC)); reflexivity.
Defined.

Lemma stored_rings_by_branch_witness :
  exists coords newTurf parts,
    entersLoop (turf := boxTurf []) (idle [zoneAB] squareC) coords newTurf /\
    Forall2 (stores (turf := boxTurf []) coords newTurf) [zoneAB] parts /\
    zones stateABC =
      List.concat (map fst parts) ++
      (if existsb snd parts then [] else [[squareC]]).
Proof.
  apply (@stored_rings_by_branch float _ (boxTurf []) (idle [zoneAB] squareC) stateABC).
  run.
Defined.

(** C10, as stated, fails in the intersection branch: [triangleT] cuts a
    corner off [squareA], what [difference] leaves has a vertex where two
    edges cross, at x = 67/7, and the zone is stored with that coordinate,
    which rounding to two decimals would change. *)
Lemma clipped_rings_not_rounded :
  isClipped (turf := boxTurf squareA_minus_T)
    (featureOf [ringA]) (featureOf [ringT])
    (Some (featureOf squareA_minus_T)) /\
  exists st',
    handleClosePolygon (turf := boxTurf squareA_minus_T) (idle [[squareA]] triangleT)
      = Normal st' /\
    In (pt cutX 0) (vertices (zones st')) /\
    nne (toFixed2 cutX) cutX = true /\
    toPoint (roundPoint (pt cutX 0)) <> pt cutX 0.
Proof.
  split; [path|].
  eexists; split; [lazy; reflexivity|]. split; [|split; [run|]].
  - right; left; reflexivity.
  - intros E. apply (f_equal (fun p => PrimFloat.eqb (x p) cutX)) in E.
    vm_compute in E. discriminate.
Qed.

End Scenarios.

(** ** Snapping *)

Section ScanFacts.

Context {num : Type} `{Number num}.

Lemma scanZone_concat (point : Point num) (zone : Zone num) s :
  scanZone point s zone = fold_left (scanVertex point) (List.concat zone) s.
Proof.
  unfold scanZone. revert s; induction zone as [|ring zone IH]; intros s; simpl;
    [reflexivity|].
  now rewrite fold_left_app, IH.
Qed.

(** The three nested loops visit [vertices zs] from left to right. *)
Lemma scanZones_vertices (zs : ZoneSet num) (point : Point num) :
  scanZones zs point =
  fold_left (scanVertex point) (vertices zs) (None, SNAP_THRESHOLD).
Proof.
  unfold scanZones, vertices. generalize (@None (Point num), SNAP_THRESHOLD).
  induction zs as [|zone zs IH]; intros s; simpl; [reflexivity|].
  now rewrite concat_app, fold_left_app, IH, scanZone_concat.
Qed.

End ScanFacts.

Section SnapScenarios.

Import Scenario.


(** On doubles the offset is 1 only up to rounding: from (11, 12) the
    point returned is not at distance 1 of the corner (10, 10), though
    within 2^-49 of it. *)
Example snap_distance_on_doubles :
  let snapped := getSnappedPoint [[squareA]] (pt 11 12) in
  let dx := (x snapped - 10)%float in
  let dy := (y snapped - 10)%float in
  fst (scanZones [[squareA]] (pt 11 12)) = Some (pt 10 10) /\
  PrimFloat.eqb (PrimFloat.sqrt (dx * dx + dy * dy)) 1 = false /\
  PrimFloat.ltb (PrimFloat.abs (PrimFloat.sqrt (dx * dx + dy * dy) - 1))
                (1 / 562949953421312) = true.
Proof. repeat split; vm_compute; reflexivity. Qed.

End SnapScenarios.

(** * Further properties of the component *)

(** ** Undo and redo along the timeline *)

Section TimelineFacts.

Context {num : Type} `{Number num}.

Implicit Types (st : State num) (zs : ZoneSet num).

Lemma history_snoc st :
  history st <> [] ->
  exists older zs, history st = older ++ [zs].
Proof.
  intros Hne. destruct (exists_last Hne) as (older & zs & E). eauto.
Qed.

Lemma history_empty_dec st : history st = [] \/ history st <> [].
Proof. destruct (history st); [left | right]; congruence. Qed.

Lemma handleUndo_empty st : history st = [] -> handleUndo st = st.
Proof. intros E; unfold handleUndo; now rewrite E. Qed.

Lemma handleRedo_handleUndo st :
  history st <> [] -> handleRedo (handleUndo st) = st.
Proof.
  intros Hne. destruct (history_snoc st Hne) as (older & zs & E).
  erewrite handleUndo_pop by exact E. unfold handleRedo; cbn.
  rewrite <- E. now destruct st.
Qed.

Lemma handleUndo_handleRedo st :
  redoStack st <> [] -> handleUndo (handleRedo st) = st.
Proof.
  intros Hne. unfold handleRedo.
  destruct (redoStack st) as [|next rest] eqn:E; [congruence|].
  erewrite handleUndo_pop by reflexivity. cbn.
  rewrite <- E. now destruct st.
Qed.

Lemma handleUndo_timeline st : timeline (handleUndo st) = timeline st.
Proof.
  destruct (history_empty_dec st) as [E|Hne].
  - now rewrite handleUndo_empty.
  - destruct (history_snoc st Hne) as (older & zs & E').
    erewrite handleUndo_pop by exact E'. unfold timeline; cbn.
    rewrite E', <- app_assoc. reflexivity.
Qed.

Lemma handleRedo_timeline st : timeline (handleRedo st) = timeline st.
Proof.
  unfold timeline, handleRedo.
  destruct (redoStack st) as [|next rest] eqn:E; cbn.
  - now rewrite E.
  - now rewrite <- app_assoc.
Qed.

Lemma handleUndo_history_length st :
  List.length (history (handleUndo st)) = pred (List.length (history st)).
Proof.
  destruct (history_empty_dec st) as [E|Hne].
  - rewrite handleUndo_empty by assumption. now rewrite E.
  - destruct (history_snoc st Hne) as (older & zs & E').
    erewrite handleUndo_pop by exact E'. cbn.
    rewrite E', length_app. simpl. lia.
Qed.

Lemma iter_undo_history_length n st :
  List.length (history (Nat.iter n handleUndo st)) = (List.length (history st) - n)%nat.
Proof.
  induction n as [|n IH]; simpl; [lia|].
  rewrite handleUndo_history_length, IH. lia.
Qed.

Lemma iter_undo_timeline n st :
  timeline (Nat.iter n handleUndo st) = timeline st.
Proof.
  induction n as [|n IH]; simpl; [reflexivity|].
  now rewrite handleUndo_timeline.
Qed.

(** Undo and redo undo each other: redo after an undo that had something
    to pop gives back the state, stacks included, and so does undo after a
    redo that had something to replay.  The redo stack, pushed and popped
    at the front, is a stack as the undo stack is. *)
Theorem undo_redo_inverse st :
  (history st <> [] -> handleRedo (handleUndo st) = st) /\
  (redoStack st <> [] -> handleUndo (handleRedo st) = st).
Proof.
  split; [apply handleRedo_handleUndo | apply handleUndo_handleRedo].
Qed.

(** Undo and redo only move the ZoneSet shown along the timeline: the
    sequence undo stack, shown ZoneSet, redo stack is the same before and
    after, no snapshot is lost, duplicated or reordered, and the polygon in
    progress is not touched. *)
Theorem undo_redo_keep_timeline st :
  timeline (handleUndo st) = timeline st /\
  timeline (handleRedo st) = timeline st /\
  currentPolygon (handleUndo st) = currentPolygon st /\
  currentPolygon (handleRedo st) = currentPolygon st.
Proof.
  split; [apply handleUndo_timeline|]. split; [apply handleRedo_timeline|]. split.
  - unfold handleUndo. now destruct (history st).
  - unfold handleRedo. now destruct (redoStack st).
Qed.

(** Any number of undos, up to the depth of the undo stack, followed by as
    many redos, gives back the state: redo replays the undone ZoneSets in
    the reverse order of their undoing. *)
Theorem undos_then_redos st n :
  (n <= List.length (history st))%nat ->
  Nat.iter n handleRedo (Nat.iter n handleUndo st) = st.
Proof.
  induction n as [|n IH]; intros Hn; [reflexivity|].
  rewrite Nat.iter_succ_r.
  change (Nat.iter (S n) handleUndo st) with (handleUndo (Nat.iter n handleUndo st)).
  assert (Hne : history (Nat.iter n handleUndo st) <> []).
  { intros E. pose proof (iter_undo_history_length n st) as L.
    rewrite E in L. simpl in L. lia. }
  rewrite (handleRedo_handleUndo _ Hne).
  apply IH. lia.
Qed.

End TimelineFacts.

(** ** More on closing a polygon *)

Section ClosureShape.

Context {num : Type} `{Number num} {turf : Turf num}.

Implicit Types (coords : list (Position num)) (newTurf : Feature num).
Implicit Types (zs pushed : ZoneSet num) (zone : Zone num) (st : State num).

Lemma stores_shape coords newTurf zone pushed handled :
  stores coords newTurf zone (pushed, handled) ->
  (List.length pushed <= 1)%nat /\
  Forall (fun z => z <> []) pushed /\
  (handled = false -> pushed = [zone]).
Proof.
  inversion 1; subst; simpl; repeat split; try lia; try discriminate;
    repeat constructor; try discriminate.
  match goal with P : passesThrough _ _ |- _ =>
    destruct P as (outer & rest & _ & _ & -> & _) end.
  discriminate.
Qed.

Lemma parts_shape coords newTurf zs (parts : list (ZoneSet num * bool)) :
  Forall2 (stores coords newTurf) zs parts ->
  (List.length (List.concat (map fst parts)) <= List.length zs)%nat /\
  Forall (fun z => z <> []) (List.concat (map fst parts)) /\
  (existsb snd parts = false -> List.concat (map fst parts) = zs).
Proof.
  induction 1 as [|zone [p h] zs parts Hs _ IH]; simpl.
  - repeat split; [lia | constructor].
  - destruct (stores_shape Hs) as (L & Hne & Hsame).
    destruct IH as (IL & INe & ISame).
    rewrite length_app. repeat split.
    + lia.
    + apply Forall_app; split; assumption.
    + intros E. apply orb_false_elim in E as [Eh Et].
      now rewrite (Hsame Eh), (ISame Et).
Qed.


Lemma handleClosePolygon_zones_nonempty st st' :
  handleClosePolygon st = Normal st' ->
  Forall (fun zone => zone <> []) (zones st').
Proof.
  intros E.
  apply handleClosePolygon_inv in E as (coords & newTurf & pushed & handled & _ & Hm & ->).
  apply mergesTo_stores in Hm as (parts & F & -> & ->).
  destruct (parts_shape F) as (_ & Hne & _). cbn [zones].
  destruct (existsb snd parts); [assumption|].
  apply Forall_app; split; [assumption|]. repeat constructor. discriminate.
Qed.


Lemma forOf_Throw {A S} (body : S -> A -> Completion S) (l : list A) (s : S) e :
  forOf body l s = Throw e ->
  exists before a after s',
    l = before ++ a :: after /\
    forOf body before s = Normal s' /\
    body s' a = Throw e.
Proof.
  revert s; induction l as [|a l IH]; intros s; simpl; [discriminate|].
  destruct (body s a) as [s1|e1|] eqn:E1; simpl.
  - intros E. destruct (IH _ E) as (before & b & after & s' & -> & Eb & Et).
    exists (a :: before), b, after, s'. repeat split; try assumption.
    simpl. now rewrite E1.
  - intros [= ->]. exists [], a, l, s. repeat split. assumption.
  - discriminate.
Qed.

Lemma pushFirstIfOpen_Throw (c : list (Position num)) e :
  pushFirstIfOpen c = Throw e -> e = TypeError /\ c = [].
Proof.
  destruct c as [|first c]; simpl; [now intros [= <-]|].
  destruct (_ || _); discriminate.
Qed.

Lemma mergeZone_Throw coords newTurf s zone e :
  mergeZone coords newTurf s zone = Throw e ->
  throwsInZone newTurf zone e \/ (e = TypeError /\ hd [] zone = []).
Proof.
  destruct s as [acc handled]. unfold mergeZone.
  destruct zone as [|outerRing rest]; [intros [= <-]; right; split; reflexivity|].
  destruct (pushFirstIfOpen (map roundPoint outerRing)) as [flatOuter|e1|] eqn:E1; simpl;
    [| |discriminate].
  2:{ intros [= ->]. apply pushFirstIfOpen_Throw in E1 as [-> E1].
      right; split; [reflexivity|]. now apply map_eq_nil in E1. }
  destruct (turfPolygon _) as [existingTurf|e2|] eqn:E2; simpl; [| |discriminate].
  2:{ intros [= ->]. left. now apply throws_turfPolygon with flatOuter. }
  assert (R : reachesTests outerRing rest flatOuter existingTurf) by (split; assumption).
  destruct (booleanContains _ _) as [[|]|e3|] eqn:E3; simpl; try discriminate.
  2:{ intros [= ->]. left. now apply throws_booleanContains with flatOuter existingTurf. }
  destruct (booleanIntersects _ _) as [[|]|e4|] eqn:E4; simpl; try discriminate.
  2:{ intros [= ->]. left.
      now apply throws_booleanIntersects with flatOuter existingTurf. }
  destruct (difference _ _) as [[clipped|[|polygon polygons]]|e5|] eqn:E5; simpl;
    try discriminate.
  - destruct (clippedRings clipped); discriminate.
  - intros [= ->]. left. now apply throws_difference with flatOuter existingTurf.
Qed.

Lemma handleClosePolygon_Throw st e :
  handleClosePolygon st = Throw e ->
  libraryThrows st e \/
  (e = TypeError /\
   (currentPolygon st = [] \/ Exists (fun zone => hd [] zone = []) (zones st))).
Proof.
  unfold handleClosePolygon, mergedZones.
  destruct (pushFirstIfOpen _) as [coords|e1|] eqn:E1; simpl; [| |discriminate].
  2:{ intros [= ->]. apply pushFirstIfOpen_Throw in E1 as [-> E1].
      right; split; [reflexivity|]. left. now apply map_eq_nil in E1. }
  destruct (turfPolygon [coords]) as [newTurf|e2|] eqn:E2; simpl; [| |discriminate].
  2:{ intros [= ->]. left. now apply throws_on_new with coords. }
  destruct (forOf _ (zones st) _) as [[acc handled]|e3|] eqn:E3; simpl;
    [destruct (typedZones _); discriminate | | discriminate].
  intros [= ->].
  apply forOf_Throw in E3 as (before & zone & after & s' & Ez & Eb & Et).
  apply mergeZone_Throw in Et as [T|[-> Hd]].
  - left. apply throws_on_zone with coords newTurf before zone after s';
      try assumption. split; assumption.
  - right; split; [reflexivity|]. right.
    rewrite Ez. apply Exists_app; right. now constructor.
Qed.

(** From a state whose ZoneSet is of the declared type (every [State] is),
    a closure throws for two reasons only: a call into the polygon library
    threw, and the exception is that one; or the program read the first
    element of an empty array, a [TypeError], which takes an empty polygon
    in progress, a zone without rings or a zone with an empty outer ring.
    A ZoneSet that holds what an earlier closure made of a MultiPolygon is
    not a [State], and is not covered. *)
Theorem closure_exceptions st e :
  handleClosePolygon st = Throw e ->
  libraryThrows st e \/
  (e = TypeError /\
   (currentPolygon st = [] \/ Exists (fun zone => hd [] zone = []) (zones st))).
Proof. apply handleClosePolygon_Throw. Qed.

(** Closing a ring twice is closing it once: the list that
    [pushFirstIfOpen] returns passes its own test, provided the coordinates
    of the first position compare equal to themselves (they are not NaN).
    So a ring rewritten by one merge is not lengthened by the next. *)
Theorem closing_is_idempotent (c c' : list (Position num)) first :
  hd_error c = Some first ->
  nne (fst first) (fst first) = false ->
  nne (snd first) (snd first) = false ->
  pushFirstIfOpen c = Normal c' ->
  pushFirstIfOpen c' = Normal c'.
Proof.
  destruct c as [|f c]; [discriminate|]. intros [= ->] Hx Hy.
  unfold pushFirstIfOpen at 1.
  destruct (_ || _) eqn:Open; intros [= <-].
  - unfold pushFirstIfOpen. cbn [app].
    change (first :: c ++ [first]) with ((first :: c) ++ [first]).
    rewrite last_last, Hx, Hy. reflexivity.
  - unfold pushFirstIfOpen. now rewrite Open.
Qed.

(** With fewer than three points in progress nothing closes: a double
    click changes nothing, a click adds its snapped point and nothing else,
    and neither throws, whatever the library does. *)
Theorem short_polygon_never_closes st rawPoint :
  (List.length (currentPolygon st) < 3)%nat ->
  handleCanvasDoubleClick st = Normal st /\
  handleCanvasClick st rawPoint =
  Normal {| currentPolygon := currentPolygon st ++ [getSnappedPoint (zones st) rawPoint];
            zones := zones st;
            history := history st;
            redoStack := redoStack st |}.
Proof.
  intros Hlt. unfold handleCanvasDoubleClick, handleCanvasClick.
  destruct (Nat.leb_spec 3 (List.length (currentPolygon st))); [lia|].
  split; reflexivity.
Qed.

End ClosureShape.

(** ** Invariants of a session *)

Section SessionFacts.

Context {num : Type} `{Number num} {turf : Turf num}.

Implicit Types (st : State num) (ev : Event num).

Lemma handleClosePolygon_timeline st st' :
  handleClosePolygon st = Normal st' ->
  timeline st' = history st ++ [zones st; zones st'].
Proof.
  intros E.
  apply handleClosePolygon_inv in E as (? & ? & ? & ? & _ & _ & ->).
  unfold timeline; cbn. now rewrite <- app_assoc.
Qed.

(** An event that returns either closed a polygon of three points or more,
    or left the timeline as it was. *)
Lemma dispatch_Normal st ev st' :
  dispatch st ev = Normal st' ->
  (handleClosePolygon st = Normal st' /\ (3 <= List.length (currentPolygon st))%nat) \/
  timeline st' = timeline st.
Proof.
  destruct ev as [rawPoint| | | |]; cbn [dispatch].
  - unfold handleCanvasClick.
    destruct (Nat.leb_spec 3 (List.length (currentPolygon st))) as [Hge|Hlt]; cbn [andb].
    + destruct (match currentPolygon st with [] => false | _ => _ end).
      * intros E; left; split; assumption.
      * intros [= <-]; right; reflexivity.
    + intros [= <-]; right; reflexivity.
  - unfold handleCanvasDoubleClick.
    destruct (Nat.leb_spec 3 (List.length (currentPolygon st))) as [Hge|Hlt].
    + intros E; left; split; assumption.
    + intros [= <-]; right; reflexivity.
  - intros [= <-]; right; reflexivity.
  - intros [= <-]; right; apply handleUndo_timeline.
  - intros [= <-]; right; apply handleRedo_timeline.
Qed.

Lemma Reachable_timeline st :
  Reachable st ->
  hd_error (timeline st) = Some [] /\
  Forall (Forall (fun zone : Zone num => zone <> [])) (timeline st).
Proof.
  induction 1 as [|st ev st' _ [Hhd Hall] Hstep].
  - split; [reflexivity|]. repeat constructor.
  - apply dispatch_Normal in Hstep as [[Hclose _]|Hsame].
    2:{ rewrite Hsame. split; assumption. }
    erewrite handleClosePolygon_timeline by exact Hclose.
    unfold timeline in Hhd, Hall.
    apply Forall_app in Hall as [Hh Hz]. apply Forall_cons_iff in Hz as [Hz _].
    split.
    + destruct (history st); [exact Hhd | exact Hhd].
    + apply Forall_app; split; [assumption|].
      repeat constructor; [assumption|].
      now apply handleClosePolygon_zones_nonempty with st.
Qed.


(** From every state of a session, as many undos as the undo stack is deep
    lead to the blank page: no zones, nothing left to undo, the blank page
    followed by the redo stack being the timeline the state had, and one
    more undo changing nothing. *)
Theorem undo_all_reaches_blank_page st :
  Reachable st ->
  let st0 := Nat.iter (List.length (history st)) handleUndo st in
  zones st0 = [] /\ history st0 = [] /\
  zones st0 :: redoStack st0 = timeline st /\
  handleUndo st0 = st0.
Proof.
  intros R st0.
  assert (Hh : history st0 = []).
  { apply length_zero_iff_nil. unfold st0.
    rewrite iter_undo_history_length. lia. }
  pose proof (iter_undo_timeline (List.length (history st)) st) as Ht.
  fold st0 in Ht. unfold timeline at 1 in Ht. rewrite Hh in Ht. cbn [app] in Ht.
  destruct (Reachable_timeline R) as [Hhd _].
  rewrite <- Ht in Hhd. injection Hhd as Hz.
  repeat split; try assumption. now apply handleUndo_empty.
Qed.

(** In a session whose ZoneSets have all been of the declared type (no
    closure so far stored what it made of a MultiPolygon), an event throws
    for two reasons only: a call into the polygon library threw during the
    closure it triggered, or a zone of the ZoneSet shown has an empty outer
    ring.  In such a session the program never closes an empty polygon and
    never meets a zone without rings. *)
Theorem session_exceptions st ev e :
  Reachable st ->
  dispatch st ev = Throw e ->
  libraryThrows st e \/
  (e = TypeError /\
   Exists (fun zone : Zone num => exists rest, zone = [] :: rest) (zones st)).
Proof.
  intros R E.
  assert (Hclose : handleClosePolygon st = Throw e /\
                   (3 <= List.length (currentPolygon st))%nat).
  { destruct ev as [rawPoint| | | |]; cbn [dispatch] in E; try discriminate.
    - unfold handleCanvasClick in E.
      destruct (Nat.leb_spec 3 (List.length (currentPolygon st))); cbn [andb] in E;
        [|discriminate].
      destruct (match currentPolygon st with [] => false | _ => _ end);
        [split; assumption | discriminate].
    - unfold handleCanvasDoubleClick in E.
      destruct (Nat.leb_spec 3 (List.length (currentPolygon st)));
        [split; assumption | discriminate]. }
  destruct Hclose as [Hthrow Hlen].
  apply handleClosePolygon_Throw in Hthrow as [L|[-> [Hcp|Hex]]]; [now left| |].
  - rewrite Hcp in Hlen. simpl in Hlen. lia.
  - right; split; [reflexivity|].
    destruct (Reachable_timeline R) as [_ Hall]. unfold timeline in Hall.
    apply Forall_app in Hall as [_ Hz]. apply Forall_cons_iff in Hz as [Hz _].
    rewrite Forall_forall in Hz. apply Exists_exists in Hex as (zone & Hin & Hd).
    apply Exists_exists. exists zone. split; [assumption|].
    destruct zone as [|ring rest]; [now elim (Hz [] Hin)|].
    simpl in Hd. subst ring. now exists rest.
Qed.

End SessionFacts.

(** ** More on snapping *)

Section ScanShape.

Context {num : Type} `{Number num}.

Implicit Types (P V W : Point num) (zs : ZoneSet num).

Lemma scan_unchanged P (l : list (Point num)) n m :
  (forall W, In W l -> nlt (distance P W) m = false) ->
  fold_left (scanVertex P) l (n, m) = (n, m).
Proof.
  induction l as [|v l IH]; intros Hfar; [reflexivity|].
  cbn [fold_left]. unfold scanVertex at 2. cbn [snd].
  rewrite (Hfar v (or_introl eq_refl)).
  apply IH. intros W HW. apply Hfar. now right.
Qed.

Lemma scan_keeps_seen P (l : list (Point num)) n m :
  fold_left (scanVertex P) l (n, m) = (n, m) \/
  exists V, In V l /\ fold_left (scanVertex P) l (n, m) = (Some V, distance P V).
Proof.
  revert n m; induction l as [|v l IH]; intros n m; [now left|].
  cbn [fold_left]. unfold scanVertex at 2 4. cbn [snd].
  destruct (nlt (distance P v) m).
  - right. destruct (IH (Some v) (distance P v)) as [E|(V & HV & E)].
    + exists v. split; [now left | exact E].
    + exists V. split; [now right | exact E].
  - destruct (IH n m) as [E|(V & HV & E)]; [now left|].
    right. exists V. split; [now right | exact E].
Qed.

(** A click with no vertex within the threshold is not moved: when the
    test [d < SNAP_THRESHOLD] fails for every vertex of every ring of
    every zone, and so on an empty ZoneSet, [getSnappedPoint] returns the
    point it was given. *)
Theorem snap_leaves_far_click zs P :
  (forall W, In W (vertices zs) -> nlt (distance P W) SNAP_THRESHOLD = false) ->
  getSnappedPoint zs P = P.
Proof.
  intros Hfar. unfold getSnappedPoint.
  rewrite scanZones_vertices. erewrite scan_unchanged by exact Hfar. reflexivity.
Qed.

(** The scan ends either with no vertex and the threshold untouched, or
    with a vertex of the ZoneSet and the distance from the click to that
    very vertex: snapping never aims at a point that is not a vertex. *)
Theorem scan_ends_on_a_vertex zs P :
  scanZones zs P = (None, SNAP_THRESHOLD) \/
  exists V, In V (vertices zs) /\ scanZones zs P = (Some V, distance P V).
Proof. rewrite scanZones_vertices. apply scan_keeps_seen. Qed.

Lemma scanVertex_nearer P V (s : option (Point num) * num) :
  nlt (distance P V) (snd s) = true -> scanVertex P s V = (Some V, distance P V).
Proof. intros E. unfold scanVertex. now rewrite E. Qed.

(** The vertex the scan keeps, by the tests the scan makes. *)
Lemma scan_keeps_first_nearest zs P V (earlier later : list (Point num)) :
  vertices zs = earlier ++ V :: later ->
  nlt (distance P V) SNAP_THRESHOLD = true ->
  (forall W, In W earlier -> nlt (distance P V) (distance P W) = true) ->
  (forall W, In W later -> nlt (distance P W) (distance P V) = false) ->
  scanZones zs P = (Some V, distance P V).
Proof.
  intros Ev Hnear Hbefore Hafter.
  rewrite scanZones_vertices, Ev, fold_left_app. cbn [fold_left].
  rewrite scanVertex_nearer.
  - now apply scan_unchanged.
  - destruct (scan_keeps_seen P earlier None SNAP_THRESHOLD) as [E|(W & HW & E)];
      rewrite E; cbn [snd]; [assumption | now apply Hbefore].
Qed.

(** Ties go to the first vertex in iteration order, by the comparisons
    the program computes: a vertex whose computed distance passes the test
    [d < SNAP_THRESHOLD], passes [d < d'] against the computed distance
    [d'] of every vertex visited before it, and is not beaten ([d' < d]
    fails) by any vertex visited after it, is the vertex the scan keeps. *)
Theorem first_nearest_vertex_wins zs P V (earlier later : list (Point num)) :
  vertices zs = earlier ++ V :: later ->
  nlt (distance P V) SNAP_THRESHOLD = true ->
  (forall W, In W earlier -> nlt (distance P V) (distance P W) = true) ->
  (forall W, In W later -> nlt (distance P W) (distance P V) = false) ->
  scanZones zs P = (Some V, distance P V).
Proof.
  intros Ev Hnear Hbefore Hafter.
  now apply scan_keeps_first_nearest with earlier later.
Qed.

End ScanShape.

(** ** Snapping on doubles *)

Section SnapOnDoubles.

Import Scenario.

Lemma Prim2SF_inj (a b : float) : Prim2SF a = Prim2SF b -> a = b.
Proof.
  intros E. rewrite <- (SF2Prim_Prim2SF a), <- (SF2Prim_Prim2SF b). now rewrite E.
Qed.

Lemma SFsub_self s m e :
  SFsub prec emax (S754_finite s m e) (S754_finite s m e) = S754_zero false.
Proof.
  unfold SFsub. rewrite Z.min_id. unfold shl_align. rewrite Z.sub_diag.
  reflexivity.
Qed.

(** [a - a] is [+0] for a finite [a], and NaN otherwise. *)
Lemma SFsub_same (a : spec_float) :
  SFsub prec emax a a =
  match a with
  | S754_zero _ | S754_finite _ _ _ => S754_zero false
  | _ => S754_nan
  end.
Proof.
  destruct a as [s|s| |s m e]; [now destruct s | now destruct s | reflexivity |].
  apply SFsub_self.
Qed.

Lemma sub_self (a : float) : isFinite a = true -> PrimFloat.sub a a = 0%float.
Proof.
  intros F. apply Prim2SF_inj. rewrite sub_spec. unfold isFinite in F.
  change (Prim2SF 0) with (S754_zero false).
  destruct (Prim2SF a) as [s|s| |s m e]; try discriminate.
  - now destruct s.
  - apply SFsub_self.
Qed.

Lemma SFeqb_self s m e : SFeqb (S754_finite s m e) (S754_finite s m e) = true.
Proof.
  unfold SFeqb, SFcompare. rewrite Z.compare_refl.
  change (Pos.compare_cont Eq m m) with (Pos.compare m m). rewrite Pos.compare_refl.
  now destruct s.
Qed.

(** [a + 0 === a] for a finite [a] (for [a = -0] the sum is [+0]). *)
Lemma add_zero (a : float) :
  isFinite a = true -> PrimFloat.eqb (PrimFloat.add a 0) a = true.
Proof.
  intros F. rewrite FloatAxioms.eqb_spec, add_spec. unfold isFinite in F.
  change (Prim2SF 0) with (S754_zero false).
  destruct (Prim2SF a) as [s|s| |s m e]; try discriminate.
  - now destruct s.
  - apply SFeqb_self.
Qed.

Lemma add_zero_sub (a : float) :
  isFinite a = true -> PrimFloat.sub (PrimFloat.add a 0) a = 0%float.
Proof.
  intros F. apply Prim2SF_inj. rewrite sub_spec, add_spec. unfold isFinite in F.
  change (Prim2SF 0) with (S754_zero false).
  destruct (Prim2SF a) as [s|s| |s m e]; try discriminate.
  - now destruct s.
  - apply SFsub_self.
Qed.

(** A point within the threshold of itself has finite coordinates: for an
    infinite or NaN coordinate the distance is NaN, and [NaN < 10] fails. *)
Lemma near_self_finite (V : Point float) :
  nlt (distance V V) SNAP_THRESHOLD = true ->
  isFinite (x V) = true /\ isFinite (y V) = true.
Proof.
  unfold distance. cbn [nlt nsqrt nadd npow2 nsub JSDouble].
  rewrite ltb_spec, sqrt_spec, add_spec, !mul_spec, !sub_spec, !SFsub_same.
  unfold isFinite.
  destruct (Prim2SF (x V)), (Prim2SF (y V)); intros E; try (split; reflexivity);
    vm_compute in E; discriminate.
Qed.



(** The length that replaces a computed 0 is also met away from the
    vertex: for a click 2^-600 right of the corner (0, 0), [dx * dx]
    underflows to 0, the length is taken as 1, and the point returned is
    the click itself, 2^-600 and not 1 away from the corner. *)
Example snap_underflow_stays_put :
  fst (scanZones [[squareA]] besideOrigin) = Some (pt 0 0) /\
  besideOrigin <> pt 0 0 /\
  getSnappedPoint [[squareA]] besideOrigin = besideOrigin.
Proof.
  split; [vm_compute; reflexivity|]. split; [|vm_compute; reflexivity].
  intros E. apply (f_equal (fun p => PrimFloat.eqb (x p) 0)) in E.
  vm_compute in E. discriminate.
Qed.

(** With [nearTie], the first vertex is, in the reals, further from the
    origin than the second, but both computed distances are 5: the scan
    keeps the first. *)
Lemma first_nearest_vertex_wins_witness :
  scanZones nearTie (pt 0 0) = (Some (pt 5 tiny), distance (pt 0 0) (pt 5 tiny)) /\
  distance (pt 0 0) (pt 5 tiny) = 5%float /\
  distance (pt 0 0) (pt 3 4) = 5%float.
Proof.
  split; [|split; vm_compute; reflexivity].
  apply (@first_nearest_vertex_wins float _ nearTie (pt 0 0) (pt 5 tiny)
           [] [pt 3 4; pt 40 40]).
  - reflexivity.
  - vm_compute; reflexivity.
  - intros W [].
  - intros W [<-|[<-|[]]]; vm_compute; reflexivity.
Defined.

End SnapOnDoubles.

(** ** Export and drawing *)

Section ExportAndDraw.

Context {num : Type} `{Number num}.

Implicit Types (zs : ZoneSet num) (zone polygon : Zone num) (ring : list (Point num)).

Lemma exportFrom_facts idx zs :
  map (@zoneIndex num) (exportFrom idx zs) = seq idx (List.length zs) /\
  map (fun d => match outer d with
                | Some ring => ring :: holes d
                | None => []
                end) (exportFrom idx zs) = zs.
Proof.
  revert idx; induction zs as [|zone zs IH]; intros idx; simpl; [now split|].
  destruct (IH (S idx)) as [Ei Ez]. rewrite Ei, Ez.
  split; [reflexivity|]. now destruct zone.
Qed.

(** The export loses nothing: it has one entry per zone, in ZoneSet order,
    numbered from 0, and putting each entry's outer ring in front of its
    holes gives back the ZoneSet, ring for ring and point for point. *)
Theorem export_is_lossless zs :
  List.length (exportZones zs) = List.length zs /\
  map (@zoneIndex num) (exportZones zs) = seq 0 (List.length zs) /\
  map (fun d => match outer d with
                | Some ring => ring :: holes d
                | None => []
                end) (exportZones zs) = zs.
Proof.
  destruct (exportFrom_facts 0 zs) as [Ei Ez]. fold (exportZones zs) in Ei, Ez.
  split; [|split; assumption].
  rewrite <- (length_map (@zoneIndex num)), Ei. apply length_seq.
Qed.

Lemma lineTargets_app (a b : list (CanvasCall num)) :
  lineTargets (a ++ b) = lineTargets a ++ lineTargets b.
Proof. unfold lineTargets. apply flat_map_app. Qed.

Lemma lineTargets_lines ring :
  lineTargets (map (fun p => lineTo (x p) (y p)) ring) = ring.
Proof.
  induction ring as [|[a b] ring IH]; [reflexivity|].
  cbn. unfold lineTargets in IH. now rewrite IH.
Qed.

Lemma drawRing_facts (close : bool) ring :
  lineTargets (drawRing close ring) =
    (if (List.length ring <? 2)%nat then [] else ring) /\
  List.length (filter isClose (drawRing close ring)) =
    (if (List.length ring <? 2)%nat then 0 else if close then 1 else 0)%nat /\
  filter isArc (drawRing close ring) = [].
Proof.
  unfold drawRing. destruct (List.length ring <? 2)%nat eqn:Short; [now repeat split|].
  destruct ring as [|[a b] others]; [discriminate|].
  assert (Hc : forall l : list (Point num),
             filter isClose (map (fun p => lineTo (x p) (y p)) l) = [] /\
             filter isArc (map (fun p => lineTo (x p) (y p)) l) = []).
  { induction l as [|q l [IH1 IH2]]; [now split|]. cbn. now split. }
  destruct (Hc others) as [Hc1 Hc2].
  repeat split.
  - change (moveTo (x {| x := a; y := b |}) (y {| x := a; y := b |})
            :: map (fun p => lineTo (x p) (y p)) others ++ (if close then [closePath] else []))
      with ([moveTo a b] ++ map (fun p => lineTo (x p) (y p)) others
            ++ (if close then [closePath] else [])).
    rewrite !lineTargets_app, lineTargets_lines.
    cbn. destruct close; cbn; now rewrite app_nil_r.
  - cbn. rewrite filter_app, Hc1. now destruct close.
  - cbn. rewrite filter_app, Hc2. now destruct close.
Qed.

Lemma drawRings_facts (close : bool) (rings : list (list (Point num))) :
  lineTargets (flat_map (drawRing close) rings) =
    List.concat (filter (fun ring => negb (List.length ring <? 2)%nat) rings) /\
  List.length (filter isClose (flat_map (drawRing close) rings)) =
    (if close
     then List.length (filter (fun ring => negb (List.length ring <? 2)%nat) rings)
     else 0%nat) /\
  filter isArc (flat_map (drawRing close) rings) = [].
Proof.
  induction rings as [|ring rings (IH1 & IH2 & IH3)]; cbn [flat_map filter].
  - repeat split. now destruct close.
  - destruct (drawRing_facts close ring) as (R1 & R2 & R3).
    rewrite lineTargets_app, !filter_app, length_app, R1, R2, R3, IH1, IH2, IH3.
    destruct (List.length ring <? 2)%nat; cbn; repeat split; now destruct close.
Qed.

Lemma drawPolygon_facts polygon (fill stroke : string) (close : bool) :
  lineTargets (drawPolygon polygon fill stroke close) = List.concat (tracedRings polygon) /\
  List.length (filter isClose (drawPolygon polygon fill stroke close)) =
    (if close then List.length (tracedRings polygon) else 0%nat) /\
  filter isArc (drawPolygon polygon fill stroke close) = [].
Proof.
  unfold drawPolygon, tracedRings.
  destruct polygon as [|outerRing rest]; [repeat split; now destruct close|].
  destruct (List.length outerRing <? 2)%nat; [repeat split; now destruct close|].
  destruct (drawRings_facts close (outerRing :: rest)) as (R1 & R2 & R3).
  change (beginPath :: ?l) with ([@beginPath num] ++ l).
  rewrite !lineTargets_app, !filter_app, !length_app, R1, R2, R3.
  cbn. rewrite app_nil_r, Nat.add_0_r. repeat split.
Qed.

(** [drawPolygon] draws nothing at all exactly when the polygon has no
    ring or its outer ring has fewer than two points; the holes of such a
    zone are not drawn either, however many points they have. *)
Theorem drawPolygon_draws_nothing_iff polygon (fill stroke : string) (close : bool) :
  drawPolygon polygon fill stroke close = [] <->
  (List.length (hd [] polygon) < 2)%nat.
Proof.
  unfold drawPolygon. destruct polygon as [|outerRing rest]; cbn [hd].
  - split; [simpl; lia | reflexivity].
  - destruct (Nat.ltb_spec (List.length outerRing) 2); split; intros E;
      try reflexivity; try assumption; [discriminate | lia].
Qed.

(** What [drawPolygon] traces: the rings of two points or more of a zone
    it draws, one after the other and point for point, the repeated first
    point of a closed ring included; and one [closePath] per traced ring
    when asked to close, none otherwise. *)
Theorem drawPolygon_traces_rings polygon (fill stroke : string) (close : bool) :
  lineTargets (drawPolygon polygon fill stroke close) = List.concat (tracedRings polygon) /\
  List.length (filter isClose (drawPolygon polygon fill stroke close)) =
    (if close then List.length (tracedRings polygon) else 0%nat).
Proof.
  destruct (drawPolygon_facts polygon fill stroke close) as (E1 & E2 & _).
  split; assumption.
Qed.

(** The overlay of a render: every point of the polygon in progress gets
    one dot, the polygon in progress is traced when it has two points or
    more and is never closed, and every [closePath] belongs to a traced
    ring of a zone. *)
Theorem overlay_dots_and_closures zs (current : list (Point num)) :
  List.length (filter isArc (drawOverlay zs current)) = List.length current /\
  List.length (filter isClose (drawOverlay zs current)) =
    List.length (flat_map tracedRings zs) /\
  lineTargets (drawOverlay zs current) =
    List.concat (flat_map tracedRings zs)
    ++ (if (1 <? List.length current)%nat then current else []).
Proof.
  unfold drawOverlay.
  assert (Hz : forall zs',
    filter isArc (flat_map (fun polygon =>
        drawPolygon polygon "rgba(71, 145, 170, 0.4)" "#4682B4" true) zs') = [] /\
    List.length (filter isClose (flat_map (fun polygon =>
        drawPolygon polygon "rgba(71, 145, 170, 0.4)" "#4682B4" true) zs')) =
      List.length (flat_map tracedRings zs') /\
    lineTargets (flat_map (fun polygon =>
        drawPolygon polygon "rgba(71, 145, 170, 0.4)" "#4682B4" true) zs') =
      List.concat (flat_map tracedRings zs')).
  { induction zs' as [|zone zs' (I1 & I2 & I3)]; [now repeat split|].
    cbn [flat_map].
    destruct (drawPolygon_facts zone "rgba(71, 145, 170, 0.4)" "#4682B4" true)
      as (E1 & E2 & E3).
    rewrite lineTargets_app, !filter_app, !length_app, concat_app, E1, E2, E3, I1, I2, I3.
    repeat split. }
  assert (Hd : forall l : list (Point num),
    List.length (filter isArc (flat_map (fun p => drawPoint p "red") l)) = List.length l /\
    filter isClose (flat_map (fun p => drawPoint p "red") l) = [] /\
    lineTargets (flat_map (fun p => drawPoint p "red") l) = []).
  { induction l as [|p l (I1 & I2 & I3)]; [now repeat split|].
    cbn [flat_map drawPoint]. rewrite lineTargets_app, !filter_app, length_app, I1, I2, I3.
    cbn. repeat split. }
  destruct (Hz zs) as (Z1 & Z2 & Z3). destruct (Hd current) as (D1 & D2 & D3).
  destruct (drawPolygon_facts [current] "rgba(0,0,0,0)" "#4682B4" false) as (C1 & C2 & C3).
  assert (Ct : (1 <? List.length current)%nat = true ->
               List.concat (tracedRings [current]) = current).
  { intros Hlong. unfold tracedRings. cbn [filter].
    replace (List.length current <? 2)%nat with false.
    - cbn. apply app_nil_r.
    - symmetry. apply Nat.ltb_ge. apply Nat.ltb_lt in Hlong. lia. }
  rewrite !lineTargets_app, !filter_app, !length_app, Z1, Z2, Z3, D1, D2, D3.
  destruct (1 <? List.length current)%nat.
  - rewrite C1, C2, C3, (Ct eq_refl). cbn. rewrite app_nil_r, !Nat.add_0_r.
    repeat split.
  - cbn. rewrite !Nat.add_0_r. repeat split.
Qed.

End ExportAndDraw.

(** ** The further properties on the scenarios *)

Section GalleryRuns.

Import Scenario Gallery.

Local Ltac run := vm_compute; reflexivity.

(** Four clicks and a double click draw [squareA] on the blank page. *)
Lemma drawnA_reachable : Reachable (turf := boxTurf []) drawnA.
Proof.
  apply reach_event with (st := idle [] squareA) (ev := DoubleClick); [|run].
  apply reach_event with (st := idle [] [pt 0 0; pt 10 0; pt 10 10])
                         (ev := Click (pt 0 10)); [|run].
  apply reach_event with (st := idle [] [pt 0 0; pt 10 0])
                         (ev := Click (pt 10 10)); [|run].
  apply reach_event with (st := idle [] [pt 0 0]) (ev := Click (pt 10 0)); [|run].
  apply reach_event with (st := initialState) (ev := Click (pt 0 0)); [|run].
  apply reach_initial.
Qed.

(** Three clicks, the last on the first, draw [sliver]. *)
Lemma sliver_reachable : Reachable (turf := boxTurf []) (idle [] sliver).
Proof.
  apply reach_event with (st := idle [] [pt 50 50; pt 90 50])
                         (ev := Click (pt 50 50)); [|run].
  apply reach_event with (st := idle [] [pt 50 50]) (ev := Click (pt 90 50)); [|run].
  apply reach_event with (st := initialState) (ev := Click (pt 50 50)); [|run].
  apply reach_initial.
Qed.

Lemma undo_redo_inverse_witness :
  handleRedo (handleUndo drawnABC) = drawnABC /\
  handleUndo (handleRedo (handleUndo drawnABC)) = handleUndo drawnABC.
Proof.
  split.
  - apply (proj1 (undo_redo_inverse drawnABC)). discriminate.
  - apply (proj2 (undo_redo_inverse (handleUndo drawnABC))). discriminate.
Defined.

Lemma undos_then_redos_witness :
  Nat.iter 2 handleRedo (Nat.iter 2 handleUndo drawnABC) = drawnABC.
Proof. apply (@undos_then_redos float drawnABC 2). simpl. lia. Defined.



Lemma closure_exceptions_witness :
  libraryThrows (turf := boxTurf []) (idle [] sliver) tooFewPositions \/
  (tooFewPositions = TypeError /\
   (currentPolygon (idle [] sliver) = [] \/
    Exists (fun zone : Zone float => hd [] zone = []) (zones (idle [] sliver)))).
Proof.
  apply (@closure_exceptions float _ (boxTurf []) (idle [] sliver) tooFewPositions).
  run.
Defined.

Lemma closing_is_idempotent_witness :
  pushFirstIfOpen ringA = Normal ringA.
Proof.
  apply (@closing_is_idempotent float _ (map roundPoint squareA) ringA (0, 0)%float);
    run.
Defined.

Lemma short_polygon_never_closes_witness :
  handleCanvasDoubleClick (turf := boxTurf []) twoPoints = Normal twoPoints /\
  handleCanvasClick (turf := boxTurf []) twoPoints (pt 50 50) =
  Normal {| currentPolygon :=
              currentPolygon twoPoints ++ [getSnappedPoint (zones twoPoints) (pt 50 50)];
            zones := zones twoPoints;
            history := history twoPoints;
            redoStack := redoStack twoPoints |}.
Proof.
  apply (@short_polygon_never_closes float _ (boxTurf []) twoPoints (pt 50 50)).
  simpl. lia.
Defined.


Lemma undo_all_reaches_blank_page_witness :
  let st0 := Nat.iter (List.length (history drawnA)) handleUndo drawnA in
  zones st0 = [] /\ history st0 = [] /\
  zones st0 :: redoStack st0 = timeline drawnA /\
  handleUndo st0 = st0.
Proof. apply (undo_all_reaches_blank_page drawnA_reachable). Defined.

Lemma session_exceptions_witness :
  libraryThrows (turf := boxTurf []) (idle [] sliver) tooFewPositions \/
  (tooFewPositions = TypeError /\
   Exists (fun zone : Zone float => exists rest, zone = [] :: rest)
          (zones (idle [] sliver))).
Proof.
  apply (@session_exceptions float _ (boxTurf []) (idle [] sliver) DoubleClick
           tooFewPositions sliver_reachable). run.
Defined.

Lemma snap_leaves_far_click_witness :
  getSnappedPoint [[squareA]] (pt 16 18) = pt 16 18.
Proof.
  apply (@snap_leaves_far_click float _ [[squareA]] (pt 16 18)).
  intros W [<-|[<-|[<-|[<-|[]]]]]; run.
Defined.

End GalleryRuns.

Section SessionShape.

Context {num : Type} `{Number num} {turf : Turf num}.

(** Only a closure writes history: an event that returns either closed a
    polygon of three points or more, or left the undo stack, the ZoneSet
    shown and the redo stack, taken in sequence, exactly as they were.
    Adding a point and clearing the polygon in progress record nothing. *)
Theorem only_closures_change_the_timeline (st st' : State num) (ev : Event num) :
  dispatch st ev = Normal st' ->
  (handleClosePolygon st = Normal st' /\ (3 <= List.length (currentPolygon st))%nat) \/
  timeline st' = timeline st.
Proof. intros E. now apply dispatch_Normal with ev. Qed.

End SessionShape.

Section SessionRuns.

Import Scenario Gallery.

Lemma only_closures_change_the_timeline_witness :
  (handleClosePolygon (turf := boxTurf []) (idle [zoneAB] squareC) = Normal stateABC /\
   (3 <= List.length (currentPolygon (idle [zoneAB] squareC)))%nat) \/
  timeline stateABC = timeline (idle [zoneAB] squareC).
Proof.
  apply (@only_closures_change_the_timeline float _ (boxTurf [])
           (idle [zoneAB] squareC) stateABC DoubleClick).
  vm_compute; reflexivity.
Defined.

End SessionRuns.
